(** * Generic-BE: the medicine matching engine of [server.js]

    A shallow embedding of the current [server.js] (the copy that defines
    [cleanContents], [detectType], [levenshteinDistance], [similarityScore]
    and [normalizeString]) and the properties its specification states.

    Conventions of the embedding.
    - A JavaScript string is a [string]; the text handled is ASCII, and the
      case mappings and the white-space class are those of ECMAScript
      restricted to ASCII.
    - A JavaScript number is a binary64 [float]; arithmetic on prices is
      the primitive IEEE arithmetic, and the built-ins [parseFloat],
      [parseInt], [Number::toString] and [toFixed] are written out from
      ECMA-262 over the exact value of a float.
    - A similarity score is kept as the exact rational [1 - d / maxLen];
      the handlers only compare scores with each other and with [0.6], and
      on names shorter than 2^25 characters the binary64 comparisons
      decide exactly as the rational ones do.
    - A table of the record store is the list of its rows in scan order.
    - An object literal is the list of its property definitions, evaluated
      left to right into a finite map. *)

From Stdlib Require Import ZArith QArith Lqa Ascii DecimalString.
From Stdlib Require String.
From Stdlib Require Import Floats.PrimFloat Floats.SpecFloat Floats.FloatOps Floats.FloatAxioms.
From stdpp Require Import gmap strings list.

(* ====================================================================== *)
(** ** ECMAScript strings *)
(* ====================================================================== *)

Module JsString.

Definition code (c : ascii) : nat := nat_of_ascii c.

Definition between (lo hi : nat) (c : ascii) : bool :=
  Nat.leb lo (code c) && Nat.leb (code c) hi.

(** [WhiteSpace] and [LineTerminator]: TAB, LF, VT, FF, CR and SP. *)
Definition isWhiteSpace (c : ascii) : bool :=
  between 9 13 c || Nat.eqb (code c) 32.

(** The class [\d]. *)
Definition isDigit (c : ascii) : bool := between 48 57 c.

(** The class [\w]: letters, digits and the underscore. *)
Definition isWordChar (c : ascii) : bool :=
  between 65 90 c || between 97 122 c || isDigit c || Nat.eqb (code c) 95.

Definition upperChar (c : ascii) : ascii :=
  if between 97 122 c then ascii_of_nat (code c - 32) else c.

Definition lowerChar (c : ascii) : ascii :=
  if between 65 90 c then ascii_of_nat (code c + 32) else c.

Fixpoint mapChars (f : ascii -> ascii) (s : string) : string :=
  match s with
  | EmptyString => EmptyString
  | String c s' => String (f c) (mapChars f s')
  end.

Definition toUpperCase : string -> string := mapChars upperChar.
Definition toLowerCase : string -> string := mapChars lowerChar.

Fixpoint trimStart (s : string) : string :=
  match s with
  | EmptyString => EmptyString
  | String c s' => if isWhiteSpace c then trimStart s' else s
  end.

Fixpoint trimEnd (s : string) : string :=
  match s with
  | EmptyString => EmptyString
  | String c s' =>
      match trimEnd s' with
      | EmptyString => if isWhiteSpace c then EmptyString else String c EmptyString
      | t => String c t
      end
  end.

Definition trim (s : string) : string := trimEnd (trimStart s).

(** [s.includes(needle)]. *)
Fixpoint includes (s needle : string) : bool :=
  String.prefix needle s
  || match s with
     | EmptyString => false
     | String _ s' => includes s' needle
     end.

(** [s.split(sep)] for a separator of one character. *)
Fixpoint split (sep : ascii) (s : string) : list string :=
  match s with
  | EmptyString => [EmptyString]
  | String c s' =>
      if Ascii.eqb c sep then EmptyString :: split sep s'
      else match split sep s' with
           | t :: ts => String c t :: ts
           | [] => [String c EmptyString]
           end
  end.

(** [parts.join(sep)]. *)
Definition join (sep : string) (parts : list string) : string :=
  String.concat sep parts.

(** [/\d/.test(s)]. *)
Fixpoint testDigit (s : string) : bool :=
  match s with
  | EmptyString => false
  | String c s' => isDigit c || testDigit s'
  end.

(** [list.includes(s)] on a list of strings. *)
Definition listIncludes (l : list string) (s : string) : bool :=
  existsb (String.eqb s) l.

Definition isEmpty (s : string) : bool :=
  match s with EmptyString => true | _ => false end.

Fixpoint repeatChar (c : ascii) (n : nat) : string :=
  match n with O => EmptyString | S n' => String c (repeatChar c n') end.

Fixpoint takeChars (n : nat) (s : string) : string :=
  match n, s with
  | S n', String c s' => String c (takeChars n' s')
  | _, _ => EmptyString
  end.

Fixpoint dropChars (n : nat) (s : string) : string :=
  match n, s with
  | S n', String _ s' => dropChars n' s'
  | _, _ => s
  end.

Fixpoint takeWhileChars (p : ascii -> bool) (s : string) : string :=
  match s with
  | String c s' => if p c then String c (takeWhileChars p s') else EmptyString
  | EmptyString => EmptyString
  end.

Fixpoint dropWhileChars (p : ascii -> bool) (s : string) : string :=
  match s with
  | String c s' => if p c then dropWhileChars p s' else s
  | EmptyString => EmptyString
  end.

End JsString.

(* ====================================================================== *)
(** ** ECMAScript numbers *)
(* ====================================================================== *)

Module JsNumber.
Import JsString.
Local Open Scope Z_scope.

(** The binary64 value nearest to [n / d] ([0 <= n], [0 < d]), ties to
    even: the quotient is taken to more than 64 significant bits, its
    remainder is kept as a sticky bit, and the result is rounded once. *)
Definition ofRatio (n d : Z) : float :=
  if n =? 0 then zero
  else
    let k := Z.max 0 (66 + Z.log2 d - Z.log2 n) in
    let num := Z.shiftl n k in
    let sticky := if num mod d =? 0 then 0 else 1 in
    SF2Prim (binary_normalize prec emax (2 * (num / d) + sticky) (- k - 1) false).

(** The number value of [s * 10^p] ([0 <= s]). *)
Definition ofDecimal (s p : Z) : float :=
  if 0 <=? p then ofRatio (s * 10 ^ p) 1 else ofRatio s (10 ^ (- p)).

(** The exact value of [abs x] as a fraction, for a finite [x]. *)
Definition magnitude (x : float) : option (Z * Z) :=
  match Prim2SF x with
  | S754_zero _ => Some (0, 1)
  | S754_finite _ m e =>
      Some (if 0 <=? e then (Zpos m * 2 ^ e, 1) else (Zpos m, 2 ^ (- e)))
  | _ => None
  end.

Definition isNegative (x : float) : bool := (x <? 0)%float.

(** [ToBoolean] on a number: [+0], [-0] and [NaN] are falsy. *)
Definition truthy (x : float) : bool := negb (is_zero x || is_nan x).

Definition digitsOfZ (z : Z) : string := NilZero.string_of_uint (N.to_uint (Z.to_N z)).

Definition digitValue (c : ascii) : Z :=
  if isDigit c then Z.of_nat (code c) - 48
  else if between 97 102 c then Z.of_nat (code c) - 87
  else Z.of_nat (code c) - 55.

Fixpoint valueOfDigits (radix acc : Z) (s : string) : Z :=
  match s with
  | EmptyString => acc
  | String c s' => valueOfDigits radix (acc * radix + digitValue c) s'
  end.

(** *** Number::toString, radix 10 *)

(** The least [j >= 1] with [1 <= N/D * 10^j]; the least positive binary64
    value is above [10^-324], so 400 steps are enough. *)
Fixpoint smallShift (fuel : nat) (N D j : Z) : Z :=
  match fuel with
  | O => j
  | S fuel' => if D <=? N * 10 ^ j then j else smallShift fuel' N D (j + 1)
  end.

(** The [n] with [10^(n-1) <= N/D < 10^n]. *)
Definition decimalExponent (N D : Z) : Z :=
  if D <=? N then Z.of_nat (String.length (digitsOfZ (N / D)))
  else 1 - smallShift 400 N D 1.

(** The [k]-digit [s] nearest to [x / 10^(n-k)] whose number value is [x],
    if there is one. *)
Definition roundTrip (x : float) (N D n k : Z) : option (Z * Z) :=
  let p := n - k in
  let '(num, den) := if 0 <=? p then (N, D * 10 ^ p) else (N * 10 ^ (- p), D) in
  let lo := num / den in
  let r := num mod den in
  let loFirst := (2 * r <? den) || ((2 * r =? den) && Z.even lo) in
  let ok s := (ofDecimal s p =? x)%float in
  let norm s := if s =? 10 ^ k then (10 ^ (k - 1), n + 1) else (s, n) in
  let first := if loFirst then lo else lo + 1 in
  let second := if loFirst then lo + 1 else lo in
  if ok first then Some (norm first)
  else if ok second then Some (norm second)
  else None.

(** The shortest digit string that reads back as [x], tried from [k]
    digits up; 17 significant digits identify any binary64 value. *)
Fixpoint shortest (fuel : nat) (x : float) (N D n k : Z) : Z * Z :=
  match fuel with
  | O => (0, n)
  | S fuel' =>
      match roundTrip x N D n k with
      | Some r => r
      | None => shortest fuel' x N D n (k + 1)
      end
  end.

Definition formatDigits (digits : string) (n : Z) : string :=
  let k := Z.of_nat (String.length digits) in
  if (k <=? n) && (n <=? 21) then
    digits +:+ repeatChar "0" (Z.to_nat (n - k))
  else if (0 <? n) && (n <=? 21) then
    takeChars (Z.to_nat n) digits +:+ "." +:+ dropChars (Z.to_nat n) digits
  else if (-6 <? n) && (n <=? 0) then
    "0." +:+ repeatChar "0" (Z.to_nat (- n)) +:+ digits
  else
    let e := n - 1 in
    let es := (if 0 <=? e then "+" else "-") +:+ digitsOfZ (Z.abs e) in
    if k =? 1 then digits +:+ "e" +:+ es
    else takeChars 1 digits +:+ "." +:+ dropChars 1 digits +:+ "e" +:+ es.

Definition toString (x : float) : string :=
  if is_nan x then "NaN"
  else if is_zero x then "0"
  else
    let sign := if isNegative x then "-" else "" in
    match magnitude x with
    | None => sign +:+ "Infinity"
    | Some (N, D) =>
        let '(s, n) := shortest 17 (abs x) N D (decimalExponent N D) 1 in
        sign +:+ formatDigits (digitsOfZ s) n
    end.

(** *** Number.prototype.toFixed *)

(** The integer [n] for which [n / scale - N / D] is closest to zero, the
    larger one when there are two. *)
Definition nearestScaled (N D scale : Z) : Z := (2 * N * scale + D) / (2 * D).

(** The digits of [n] with a decimal point before the last [f] of them,
    padded with zeros on the left to at least [f + 1] digits. *)
Definition fixedDigits (n : Z) (f : nat) : string :=
  let m := digitsOfZ n in
  let m := repeatChar "0" (S f - String.length m) +:+ m in
  let k := String.length m in
  match f with
  | O => m
  | _ => takeChars (k - f) m +:+ "." +:+ dropChars (k - f) m
  end.

(** A value that is not finite, or whose magnitude reaches [10^21], is
    written by [toString]. *)
Definition toFixed (x : float) (f : nat) : string :=
  match magnitude x with
  | None => toString x
  | Some (N, D) =>
      if 10 ^ 21 * D <=? N then toString x
      else
        (if isNegative x then "-" else "")
        +:+ fixedDigits (nearestScaled N D (10 ^ Z.of_nat f)) f
  end.

(** *** parseFloat and parseInt on a string *)

Definition splitSign (s : string) : bool * string :=
  match s with
  | String c r =>
      if Ascii.eqb c "-" then (true, r)
      else if Ascii.eqb c "+" then (false, r)
      else (false, s)
  | EmptyString => (false, s)
  end.

Definition withSign (neg : bool) (x : float) : float :=
  if neg then (- x)%float else x.

Definition afterDot (s : string) : option string :=
  match s with
  | String c r => if Ascii.eqb c "." then Some r else None
  | EmptyString => None
  end.

(** The value of an [ExponentPart] at the head of [s], or [0]. *)
Definition exponentPart (s : string) : Z :=
  match s with
  | String c r =>
      if Ascii.eqb c "e" || Ascii.eqb c "E" then
        let '(neg, d) := splitSign r in
        let ds := takeWhileChars isDigit d in
        if isEmpty ds then 0
        else if neg then - valueOfDigits 10 0 ds else valueOfDigits 10 0 ds
      else 0
  | EmptyString => 0
  end.

Definition parseFloatString (input : string) : float :=
  let '(neg, s) := splitSign (trimStart input) in
  if String.prefix "Infinity" s then withSign neg infinity
  else
    let ip := takeWhileChars isDigit s in
    let r1 := dropWhileChars isDigit s in
    let fp := match afterDot r1 with
              | Some r => takeWhileChars isDigit r
              | None => ""
              end in
    let r2 := match afterDot r1 with
              | Some r => dropWhileChars isDigit r
              | None => r1
              end in
    if isEmpty ip && isEmpty fp then nan
    else
      withSign neg
        (ofDecimal (valueOfDigits 10 0 (ip +:+ fp))
                   (exponentPart r2 - Z.of_nat (String.length fp))).

Definition isHexDigit (c : ascii) : bool :=
  isDigit c || between 97 102 c || between 65 70 c.

Definition parseIntString (input : string) : float :=
  let '(neg, s) := splitSign (trimStart input) in
  let hex := String.prefix "0x" s || String.prefix "0X" s in
  let ds := if hex then takeWhileChars isHexDigit (dropChars 2 s)
            else takeWhileChars isDigit s in
  if isEmpty ds then nan
  else withSign neg (ofRatio (valueOfDigits (if hex then 16 else 10) 0 ds) 1).

End JsNumber.

(* ====================================================================== *)
(** ** Values held by the cells of a parsed row *)
(* ====================================================================== *)

Inductive JsValue :=
  | VUndefined
  | VNull
  | VBool (b : bool)
  | VNumber (x : float)
  | VString (s : string).

(** [ToBoolean]: the truthiness tested by [!v], [v ? a : b] and [a && b]. *)
Definition toBoolean (v : JsValue) : bool :=
  match v with
  | VUndefined | VNull => false
  | VBool b => b
  | VNumber x => JsNumber.truthy x
  | VString s => negb (JsString.isEmpty s)
  end.

(** [String(v)]. *)
Definition ToString (v : JsValue) : string :=
  match v with
  | VUndefined => "undefined"
  | VNull => "null"
  | VBool b => if b then "true" else "false"
  | VNumber x => JsNumber.toString x
  | VString s => s
  end.

Definition parseFloat (v : JsValue) : float :=
  JsNumber.parseFloatString (ToString v).

Definition parseInt (v : JsValue) : float :=
  JsNumber.parseIntString (ToString v).

(** The outcome of an expression that can throw. *)
Inductive Completion (A : Type) :=
  | Normal (a : A)
  | Throw.
Arguments Normal {A} a.
Arguments Throw {A}.

(** [v?.trim()]: [undefined] on a nullish [v], a [TypeError] on a value
    that has no [trim] method. *)
Definition optionalTrim (v : JsValue) : Completion (option string) :=
  match v with
  | VUndefined | VNull => Normal None
  | VString s => Normal (Some (JsString.trim s))
  | VBool _ | VNumber _ => Throw
  end.

(** An object literal: later definitions of a key replace earlier ones. *)
Definition objectLiteral {V : Type} (props : list (string * V)) : gmap string V :=
  foldl (fun o kv => <[kv.1 := kv.2]> o) ∅ props.

(* ====================================================================== *)
(** ** Utility functions *)
(* ====================================================================== *)

Import JsString.

(** The body of the [for (let p of parts)] loop of [extractSalt]: push
    until the first part that holds a digit. *)
Fixpoint saltPartsOf (parts : list string) : list string :=
  match parts with
  | [] => []
  | p :: rest => if testDigit p then [] else p :: saltPartsOf rest
  end.

Definition extractSalt (contents : JsValue) : option string :=
  if negb (toBoolean contents) then None
  else
    let contentsStr := trim (ToString contents) in
    if listIncludes ["#N/A"; "N/A"; "NA"; ""] contentsStr then None
    else
      let parts := split " " contentsStr in
      let saltParts := saltPartsOf parts in
      let salt := toUpperCase (trim (join " " saltParts)) in
      if isEmpty salt then None else Some salt.

Definition cleanContents (contents : JsValue) : option string :=
  if negb (toBoolean contents) then None
  else
    let contentsStr := trim (ToString contents) in
    if listIncludes ["#N/A"; "N/A"; "NA"; ""] contentsStr then None
    else Some contentsStr.

Inductive MedType :=
  | TABLET | CAPSULE | INJECTION | SYRUP | TOPICAL
  | DROPS | POWDER | INHALER | OTHER.

(** [productName] is [null] or a string. *)
Definition detectType (productName : option string) : option MedType :=
  match productName with
  | None => None
  | Some productName =>
      if isEmpty productName then None
      else
        let name := toUpperCase productName in
        if includes name "TAB" || includes name "TABLET" then Some TABLET
        else if includes name "CAP" || includes name "CAPSULE" then Some CAPSULE
        else if includes name "INJ" || includes name "INJECTION" then Some INJECTION
        else if includes name "SYR" || includes name "SYRUP"
                || includes name "SUSP" || includes name "SUSPENSION" then Some SYRUP
        else if includes name "CREAM" || includes name "OINTMENT"
                || includes name "GEL" then Some TOPICAL
        else if includes name "DROP" || includes name "DROPS" then Some DROPS
        else if includes name "POWDER" || includes name "SACHET" then Some POWDER
        else if includes name "INHALER" || includes name "ROTACAP"
                || includes name "RESPULE" then Some INHALER
        else Some OTHER
  end.

(** *** Levenshtein distance over an explicit matrix *)

Definition mget (matrix : list (list nat)) (i j : nat) : nat :=
  default 0 (matrix !! i ≫= (.!! j)).

Definition mset (matrix : list (list nat)) (i j v : nat) : list (list nat) :=
  alter (<[j := v]>) i matrix.

Definition min3 (a b c : nat) : nat := Nat.min a (Nat.min b c).

(** [str1[i - 1] === str2[j - 1] ? 0 : 1]. *)
Definition cost (str1 str2 : string) (i j : nat) : nat :=
  if bool_decide (String.get (i - 1) str1 = String.get (j - 1) str2) then 0 else 1.

Definition levCell (str1 str2 : string) (i : nat) (matrix : list (list nat)) (j : nat)
  : list (list nat) :=
  mset matrix i j
    (min3 (mget matrix (i - 1) j + 1)
          (mget matrix i (j - 1) + 1)
          (mget matrix (i - 1) (j - 1) + cost str1 str2 i j)).

Definition levRow (str1 str2 : string) (len2 : nat) (matrix : list (list nat)) (i : nat)
  : list (list nat) :=
  foldl (levCell str1 str2 i) matrix (seq 1 len2).

Definition levInit (len1 len2 : nat) : list (list nat) :=
  let matrix := replicate (len1 + 1) (replicate (len2 + 1) 0) in
  let matrix := foldl (fun m i => mset m i 0 i) matrix (seq 0 (len1 + 1)) in
  foldl (fun m j => mset m 0 j j) matrix (seq 0 (len2 + 1)).

Definition levMatrix (str1 str2 : string) : list (list nat) :=
  let len1 := String.length str1 in
  let len2 := String.length str2 in
  foldl (levRow str1 str2 len2) (levInit len1 len2) (seq 1 len1).

Definition levenshteinDistance (str1 str2 : string) : nat :=
  mget (levMatrix str1 str2) (String.length str1) (String.length str2).

(** The score is the exact rational [1 - distance / maxLen]. *)
Definition similarityScore (str1 str2 : string) : Q :=
  let s1 := trim (toLowerCase str1) in
  let s2 := trim (toLowerCase str2) in
  if String.eqb s1 s2 then 1%Q
  else
    let maxLen := Nat.max (String.length s1) (String.length s2) in
    if Nat.eqb maxLen 0 then 1%Q
    else
      let distance := levenshteinDistance s1 s2 in
      (1 - inject_Z (Z.of_nat distance) / inject_Z (Z.of_nat maxLen))%Q.

(** *** normalizeString *)

(** [.replace(/\s+/g, " ")]. *)
Fixpoint collapseSpaces (inRun : bool) (s : string) : string :=
  match s with
  | EmptyString => EmptyString
  | String c s' =>
      if isWhiteSpace c then
        if inRun then collapseSpaces true s'
        else String " " (collapseSpaces true s')
      else String c (collapseSpaces false s')
  end.

(** [.replace(/[()]/g, "")]. *)
Fixpoint removeParens (s : string) : string :=
  match s with
  | EmptyString => EmptyString
  | String c s' =>
      if Ascii.eqb c "(" || Ascii.eqb c ")" then removeParens s'
      else String c (removeParens s')
  end.

(** [w] stands at the head of [s] and a word boundary follows it. *)
Definition wordAt (w s : string) : bool :=
  String.prefix w s
  && match dropChars (String.length w) s with
     | EmptyString => true
     | String c _ => negb (isWordChar c)
     end.

(** [.replace(/\bW1\b|\bW2\b/g, repl)]: at each position outside a match
    the alternatives are tried in order; [prevWord] tells whether the
    character before the position is a word character, [skip] counts the
    characters of the current match still to be consumed. *)
Fixpoint replaceWords (alts : list string) (repl : string)
    (prevWord : bool) (skip : nat) (s : string) : string :=
  match s with
  | EmptyString => EmptyString
  | String c s' =>
      match skip with
      | S k => replaceWords alts repl (isWordChar c) k s'
      | O =>
          match (if prevWord then None else List.find (fun w => wordAt w s) alts) with
          | Some w =>
              repl +:+ replaceWords alts repl (isWordChar c) (String.length w - 1) s'
          | None => String c (replaceWords alts repl (isWordChar c) 0 s')
          end
      end
  end.

Definition normalizeString (str : string) : string :=
  if isEmpty str then ""
  else
    let s := toUpperCase str in
    let s := collapseSpaces false s in
    let s := removeParens s in
    let s := replaceWords ["TABLET"; "TAB"] "TAB" false 0 s in
    let s := replaceWords ["CAPSULE"; "CAP"] "CAP" false 0 s in
    let s := replaceWords ["INJECTION"; "INJ"] "INJ" false 0 s in
    let s := replaceWords ["SYRUP"; "SYR"] "SYR" false 0 s in
    trim s.

(* ====================================================================== *)
(** ** The record store *)
(* ====================================================================== *)

(** Modelled from the spec: the Prisma schema behind [prisma.brandedMedicine]
    and [prisma.genericMedicine] is not part of the sources; the two tables
    share the record shape of the data model, [name] standing for
    [brandedName] or [genericName], the unique key of its table.  A nullable
    column is an [option]; the surrogate [id], which no handler reads, is
    left out. *)
Record Medicine := {
  name : string;
  salt : option string;
  contents : option string;
  type : option MedType;
  packing : option string;
  ptr : option float;
  mrp : option float;
  shipperSize : option float
}.

(** [findUnique({ where: { name: key } })]. *)
Definition findUnique (table : list Medicine) (key : string) : option Medicine :=
  List.find (fun r => String.eqb (name r) key) table.

(** [upsert({ where: { name: key }, update, create })]: the row that has
    the key is updated in place, otherwise the created row is appended. *)
Fixpoint upsert (table : list Medicine) (key : string)
    (update : Medicine -> Medicine) (create : Medicine) : list Medicine :=
  match table with
  | [] => [create]
  | r :: rest =>
      if String.eqb (name r) key then update r :: rest
      else r :: upsert rest key update create
  end.

(** [findFirst({ where: { name: { equals: query, mode: "insensitive" } } })]. *)
Definition findFirstEquals (table : list Medicine) (query : string) : option Medicine :=
  List.find (fun r => String.eqb (toLowerCase (name r)) (toLowerCase query)) table.

(** [findFirst({ where: { name: { contains: query, mode: "insensitive" } } })]. *)
Definition findFirstContains (table : list Medicine) (query : string) : option Medicine :=
  List.find (fun r => includes (toLowerCase (name r)) (toLowerCase query)) table.

(** A condition on a nullable string column: [col: v] and [col: { not: v }]. *)
Inductive StringFilter :=
  | FEquals (v : option string)
  | FNot (v : option string).

Definition filterHolds (f : StringFilter) (v : option string) : bool :=
  match f, v with
  | FEquals None, None => true
  | FEquals (Some s), Some t => String.eqb s t
  | FEquals _, _ => false
  | FNot None, Some _ => true
  | FNot (Some s), Some t => negb (String.eqb s t)
  | FNot _, None => false
  end.

(** A [where] object constrains the [salt] column when it has that key. *)
Definition whereHolds (where_ : gmap string StringFilter) (r : Medicine) : bool :=
  match where_ !! "salt" with
  | Some f => filterHolds f (salt r)
  | None => true
  end.

(** [orderBy: { ptr: 'asc' }]: ascending, [NaN] above every number, nulls
    last, rows of equal price in scan order. *)
Definition ptrLe (a b : option float) : bool :=
  match a, b with
  | _, None => true
  | None, Some _ => false
  | Some x, Some y => is_nan y || (x <=? y)%float
  end.

Fixpoint insertByPtr (r : Medicine) (sorted : list Medicine) : list Medicine :=
  match sorted with
  | [] => [r]
  | h :: rest =>
      if ptrLe (ptr r) (ptr h) then r :: sorted
      else h :: insertByPtr r rest
  end.

Definition orderByPtr (rows : list Medicine) : list Medicine :=
  foldr insertByPtr [] rows.

(** [findMany({ where, orderBy: { ptr: 'asc' } })]. *)
Definition findMany (table : list Medicine) (where_ : gmap string StringFilter)
  : list Medicine :=
  orderByPtr (List.filter (whereHolds where_) table).

(* ====================================================================== *)
(** ** Upload endpoints *)
(* ====================================================================== *)

Record Stats := { created : nat; updated : nat }.

(** [row[key]]. *)
Definition getProp (row : gmap string JsValue) (key : string) : JsValue :=
  default VUndefined (row !! key).

(** [v !== undefined && v !== null ? String(v).trim() : null]. *)
Definition packingField (v : JsValue) : option string :=
  match v with
  | VUndefined | VNull => None
  | _ => Some (trim (ToString v))
  end.

(** [v ? parseFloat(v) : null]. *)
Definition floatField (v : JsValue) : option float :=
  if toBoolean v then Some (parseFloat v) else None.

(** [v ? parseInt(v) : null]. *)
Definition intField (v : JsValue) : option float :=
  if toBoolean v then Some (parseInt v) else None.

(** The [create] data of the upsert; the [update] data are the same fields
    without the key. *)
Definition createData (key : string) (row : gmap string JsValue) : Medicine :=
  let rawContents := getProp row "CONTENTS" in
  {| name := key;
     salt := extractSalt rawContents;
     contents := cleanContents rawContents;
     type := detectType (Some key);
     packing := packingField (getProp row "PACKING");
     ptr := floatField (getProp row "PTR");
     mrp := floatField (getProp row "MRP");
     shipperSize := intField (getProp row "SHIPPER SIZE") |}.

Definition updateData (key : string) (row : gmap string JsValue) (old : Medicine)
  : Medicine :=
  let rawContents := getProp row "CONTENTS" in
  {| name := name old;
     salt := extractSalt rawContents;
     contents := cleanContents rawContents;
     type := detectType (Some key);
     packing := packingField (getProp row "PACKING");
     ptr := floatField (getProp row "PTR");
     mrp := floatField (getProp row "MRP");
     shipperSize := intField (getProp row "SHIPPER SIZE") |}.

(** One turn of the [for (const row of rows)] loop. *)
Definition uploadRow (table : list Medicine) (stats : Stats)
    (row : gmap string JsValue) : Completion (list Medicine * Stats) :=
  match optionalTrim (getProp row "PRODUCT NAME") with
  | Throw => Throw
  | Normal None => Normal (table, stats)
  | Normal (Some key) =>
      if isEmpty key then Normal (table, stats)
      else
        let existing := findUnique table key in
        let table' := upsert table key (updateData key row) (createData key row) in
        Normal (table',
                match existing with
                | Some _ => {| created := created stats; updated := S (updated stats) |}
                | None => {| created := S (created stats); updated := updated stats |}
                end)
  end.

(** The loop; an exception leaves it with the rows written so far. *)
Fixpoint uploadRows (rows : list (gmap string JsValue)) (table : list Medicine)
    (stats : Stats) : list Medicine * option Stats :=
  match rows with
  | [] => (table, Some stats)
  | row :: rest =>
      match uploadRow table stats row with
      | Throw => (table, None)
      | Normal (table', stats') => uploadRows rest table' stats'
      end
  end.

Inductive UploadResponse :=
  | UploadNoFile
  | UploadFailed
  | UploadDone (created updated total : nat).

(** The handler of [POST /upload/generic] and of [POST /upload/branded] on
    its table: [file] is [None] when the request has no file, otherwise the
    outcome of [readExcelSmart] on it. *)
Definition upload (file : option (Completion (list (gmap string JsValue))))
    (table : list Medicine) : list Medicine * UploadResponse :=
  match file with
  | None => (table, UploadNoFile)
  | Some Throw => (table, UploadFailed)
  | Some (Normal rows) =>
      match uploadRows rows table {| created := 0; updated := 0 |} with
      | (table', Some stats) =>
          (table', UploadDone (created stats) (updated stats)
                              (created stats + updated stats))
      | (table', None) => (table', UploadFailed)
      end
  end.

(** The two tables of the store. *)
Record Store := {
  brandedMedicine : list Medicine;
  genericMedicine : list Medicine
}.

(** [POST /upload/generic]. *)
Definition uploadGeneric (file : option (Completion (list (gmap string JsValue))))
    (store : Store) : Store * UploadResponse :=
  let '(table, response) := upload file (genericMedicine store) in
  ({| brandedMedicine := brandedMedicine store; genericMedicine := table |}, response).

(** [POST /upload/branded]. *)
Definition uploadBranded (file : option (Completion (list (gmap string JsValue))))
    (store : Store) : Store * UploadResponse :=
  let '(table, response) := upload file (brandedMedicine store) in
  ({| brandedMedicine := table; genericMedicine := genericMedicine store |}, response).

(* ====================================================================== *)
(** ** Search endpoints *)
(* ====================================================================== *)

Definition Qltb (a b : Q) : bool := negb (Qle_bool b a).

(** The body of the fuzzy loop on [(bestMatch, bestScore)]. *)
Definition fuzzyStep (normalizedQuery : string) (best : option Medicine * Q)
    (medicine : Medicine) : option Medicine * Q :=
  let normalizedName := normalizeString (name medicine) in
  let score := similarityScore normalizedQuery normalizedName in
  if Qltb best.2 score && Qltb (6 # 10) score then (Some medicine, score)
  else best.

Definition fuzzyMatch (table : list Medicine) (query : string) : option Medicine :=
  (foldl (fuzzyStep (normalizeString query)) (None, 0%Q) table).1.

(** Steps 1 to 3 of both search handlers. *)
Definition resolve (table : list Medicine) (query : string) : option Medicine :=
  match findFirstEquals table query with
  | Some r => Some r
  | None =>
      match findFirstContains table query with
      | Some r => Some r
      | None => fuzzyMatch table query
      end
  end.

(** [{ salt: source.salt, salt: { not: null } }]. *)
Definition saltWhere (source : Medicine) : gmap string StringFilter :=
  objectLiteral [("salt", FEquals (salt source)); ("salt", FNot None)].

(** The rows of the other table fetched for a resolved record. *)
Definition crossReference (source : Medicine) (other : list Medicine) : list Medicine :=
  findMany other (saltWhere source).

(** [branded.ptr && g.ptr ?
     ((branded.ptr - g.ptr) / branded.ptr * 100).toFixed(2) + '%' : null]. *)
Definition savings (sourcePtr resultPtr : option float) : option string :=
  match sourcePtr, resultPtr with
  | Some b, Some g =>
      if JsNumber.truthy b && JsNumber.truthy g then
        Some (JsNumber.toFixed ((b - g) / b * 100)%float 2 +:+ "%")
      else None
  | _, _ => None
  end.

Inductive SearchResponse (A : Type) :=
  | BadRequest
  | NotFound
  | Found (source : Medicine) (alternatives : list A).
Arguments BadRequest {A}.
Arguments NotFound {A}.
Arguments Found {A} source alternatives.

(** [GET /search/branded]; [query] is [req.query.name]. *)
Definition searchBranded (branded generic : list Medicine) (query : option string)
  : SearchResponse (Medicine * option string) :=
  match query with
  | None => BadRequest
  | Some q =>
      if isEmpty q then BadRequest
      else match resolve branded q with
           | None => NotFound
           | Some b =>
               Found b (map (fun g => (g, savings (ptr b) (ptr g)))
                            (crossReference b generic))
           end
  end.

(** [GET /search/generic]. *)
Definition searchGeneric (branded generic : list Medicine) (query : option string)
  : SearchResponse Medicine :=
  match query with
  | None => BadRequest
  | Some q =>
      if isEmpty q then BadRequest
      else match resolve generic q with
           | None => NotFound
           | Some g => Found g (crossReference g branded)
           end
  end.

(* ====================================================================== *)
(** ** The keyword table of the dosage forms, as the specification lists it *)
(* ====================================================================== *)

Definition categoryKeywords : list (MedType * list string) :=
  [ (TABLET, ["TAB"; "TABLET"]);
    (CAPSULE, ["CAP"; "CAPSULE"]);
    (INJECTION, ["INJ"; "INJECTION"]);
    (SYRUP, ["SYR"; "SYRUP"; "SUSP"; "SUSPENSION"]);
    (TOPICAL, ["CREAM"; "OINTMENT"; "GEL"]);
    (DROPS, ["DROP"; "DROPS"]);
    (POWDER, ["POWDER"; "SACHET"]);
    (INHALER, ["INHALER"; "ROTACAP"; "RESPULE"]) ].

(** The first category of the table one of whose keywords occurs in the
    upper-cased name, [OTHER] when there is none. *)
Definition detectTypeSpec (productName : option string) : option MedType :=
  match productName with
  | None => None
  | Some productName =>
      if isEmpty productName then None
      else
        match List.find (fun cat => existsb (includes (toUpperCase productName)) cat.2)
                        categoryKeywords with
        | Some cat => Some cat.1
        | None => Some OTHER
        end
  end.

(* ====================================================================== *)
(** ** The salt extractor as a procedure on the input itself *)
(* ====================================================================== *)

(** The sentinel tokens looked for in the trimmed input: null for a null or
    empty input and for an input that is, once trimmed, one of the
    sentinel tokens or empty.  Otherwise the input is split on
    single spaces, the tokens before the first one that holds a decimal
    digit are kept, joined with a single space, trimmed and upper-cased;
    an empty result is null. *)
Definition extractSaltSpec (input : option string) : option string :=
  match input with
  | None => None
  | Some s =>
      if isEmpty s || listIncludes ["#N/A"; "N/A"; "NA"; ""] (trim s) then None
      else
        let tokens := split " " s in
        let kept :=
          match list_find (fun t => testDigit t = true) tokens with
          | Some (k, _) => take k tokens
          | None => tokens
          end in
        let result := toUpperCase (trim (join " " kept)) in
        if isEmpty result then None else Some result
  end.

(** The procedure read by its words alone, the sentinel tokens looked for
    in the input as it comes: null for a null or empty input and for one
    of the three tokens; otherwise split, keep, join, trim and upper-case
    as above. *)
Definition extractSaltAsStated (input : option string) : option string :=
  match input with
  | None => None
  | Some s =>
      if isEmpty s || listIncludes ["#N/A"; "N/A"; "NA"] s then None
      else
        let tokens := split " " s in
        let kept :=
          match list_find (fun t => testDigit t = true) tokens with
          | Some (k, _) => take k tokens
          | None => tokens
          end in
        let result := toUpperCase (trim (join " " kept)) in
        if isEmpty result then None else Some result
  end.

(* ====================================================================== *)
(** ** The fuzzy score of a record for a query *)
(* ====================================================================== *)

(** The similarity (4.5) of the normalized query and the normalized name. *)
Definition fuzzyScore (query : string) (medicine : Medicine) : Q :=
  similarityScore (normalizeString query) (normalizeString (name medicine)).

(** The fuzzy-acceptance threshold. *)
Definition threshold : Q := 6 # 10.

(** A record that has only its key, for examples. *)
Definition named (key : string) : Medicine :=
  {| name := key; salt := None; contents := None; type := None;
     packing := None; ptr := None; mrp := None; shipperSize := None |}.

(** Sample records of the two tables. *)
Definition crocin : Medicine :=
  {| name := "CROCIN TAB"; salt := Some "PARACETAMOL";
     contents := Some "PARACETAMOL 500MG"; type := Some TABLET;
     packing := None; ptr := Some 30%float; mrp := None; shipperSize := None |}.

Definition brufen : Medicine :=
  {| name := "BRUFEN"; salt := Some "IBUPROFEN";
     contents := Some "IBUPROFEN 400MG"; type := Some OTHER;
     packing := None; ptr := Some 12%float; mrp := None; shipperSize := None |}.

(** A text cell that does not start, after its leading white space, like
    a number: not with a digit, a sign, a dot or the I of Infinity. *)
Definition nonNumericText (s : string) : bool :=
  match trimStart s with
  | EmptyString => true
  | String c _ =>
      negb (isDigit c || Ascii.eqb c "+" || Ascii.eqb c "-"
            || Ascii.eqb c "." || Ascii.eqb c "I")
  end.

(** Sample rows. *)
Definition brufenRow : gmap string JsValue :=
  {[ "PRODUCT NAME" := VString "BRUFEN";
     "CONTENTS" := VString "IBUPROFEN 400MG";
     "PTR" := VString "abc";
     "MRP" := VString "n.a.";
     "SHIPPER SIZE" := VString "ten" ]}.

Definition crocinRow : gmap string JsValue :=
  {[ "PRODUCT NAME" := VString " CROCIN TAB ";
     "CONTENTS" := VString "PARACETAMOL 500MG";
     "PTR" := VNumber 30%float ]}.

(* ====================================================================== *)
(** ** The edit distance by its recurrence *)
(* ====================================================================== *)

(** The distance between the first [i] characters of [str1] and the first
    [j] characters of [str2]: the minimum number of insertions, deletions
    and substitutions, by the usual recurrence. *)
Fixpoint levD (str1 str2 : string) (i : nat) : nat -> nat :=
  match i with
  | O => fun j => j
  | S i' =>
      fix row (j : nat) : nat :=
        match j with
        | O => S i'
        | S j' =>
            min3 (levD str1 str2 i' (S j') + 1)
                 (row j' + 1)
                 (levD str1 str2 i' j' + cost str1 str2 (S i') (S j'))
        end
  end.

(* ====================================================================== *)
(** ** Invariants of the loops *)
(* ====================================================================== *)

(** A matrix of [rows] rows of [cols] cells. *)
Definition shape (rows cols : nat) (m : list (list nat)) : Prop :=
  length m = rows /\ Forall (fun r => length r = cols) m.

(** After the rows below [i] and the cells of row [i] left of [j], every
    cell written so far holds the recurrence. *)
Definition filled (s1 s2 : string) (i j : nat) (m : list (list nat)) : Prop :=
  shape (String.length s1 + 1) (String.length s2 + 1) m
  /\ forall a b, a <= String.length s1 -> b <= String.length s2 ->
       a < i \/ b = 0 \/ (a = i /\ b < j) ->
       mget m a b = levD s1 s2 a b.

(** The text kept by the loop of [extractSalt] on the parts of [s]. *)
Definition keptText (s : string) : string := join " " (saltPartsOf (split " " s)).

(** The first part of [s] holds a digit. *)
Definition headDigit (s : string) : bool := testDigit (hd "" (split " " s)).

(** The loop stops at the part that starts with [c] and goes on as [s]. *)
Definition stopsAt (c : ascii) (s : string) : bool :=
  if Ascii.eqb c " " then headDigit s else isDigit c || headDigit s.

(** What the fuzzy loop holds after the records of [seen]. *)
Definition fuzzyInvariant (query : string) (seen : list Medicine)
    (best : option Medicine * Q) : Prop :=
  match best.1 with
  | None =>
      best.2 = 0%Q
      /\ forall x, In x seen -> (fuzzyScore query x <= threshold)%Q
  | Some m =>
      best.2 = fuzzyScore query m
      /\ (threshold < fuzzyScore query m)%Q
      /\ exists pre post,
           seen = pre ++ m :: post
           /\ (forall x, In x pre -> (fuzzyScore query x < fuzzyScore query m)%Q)
           /\ (forall x, In x post -> (fuzzyScore query x <= fuzzyScore query m)%Q)
  end.

(* ====================================================================== *)
(** ** The reader of the sheet *)
(* ====================================================================== *)

(** [readExcelSmart] from the array of arrays that [sheet_to_json] with
    [header: 1] yields; reading the file itself is left to the library. *)

(** [row.some(col => String(col).trim().toUpperCase() === "PRODUCT NAME")]. *)
Definition isHeaderRow (row : list JsValue) : bool :=
  existsb (fun col => String.eqb (toUpperCase (trim (ToString col))) "PRODUCT NAME") row.

(** [rows.findIndex(p)], [None] standing for [-1]. *)
Fixpoint findIndex {A : Type} (p : A -> bool) (l : list A) : option nat :=
  match l with
  | [] => None
  | x :: rest => if p x then Some 0 else S <$> findIndex p rest
  end.

(** [h.toString().trim()]: a [TypeError] on a nullish cell. *)
Definition headerCell (h : JsValue) : Completion string :=
  match h with
  | VUndefined | VNull => Throw
  | _ => Normal (trim (ToString h))
  end.

(** [cells.map(h => h.toString().trim())]. *)
Fixpoint headerCells (cells : list JsValue) : Completion (list string) :=
  match cells with
  | [] => Normal []
  | h :: rest =>
      match headerCell h with
      | Throw => Throw
      | Normal t =>
          match headerCells rest with
          | Throw => Throw
          | Normal ts => Normal (t :: ts)
          end
      end
  end.

(** [row[idx] ?? ""]. *)
Definition cellOrEmpty (row : list JsValue) (idx : nat) : JsValue :=
  match row !! idx with
  | Some VUndefined | Some VNull | None => VString ""
  | Some v => v
  end.

(** [header.forEach((h, idx) => { if (!h) return; obj[h] = row[idx] ?? ""; })]
    from the header cell of index [idx] on. *)
Fixpoint fillObject (header : list string) (idx : nat) (row : list JsValue)
    (obj : gmap string JsValue) : gmap string JsValue :=
  match header with
  | [] => obj
  | h :: rest =>
      fillObject rest (S idx) row
        (if isEmpty h then obj else <[h := cellOrEmpty row idx]> obj)
  end.

Definition rowObject (header : list string) (row : list JsValue)
  : gmap string JsValue :=
  fillObject header 0 row ∅.

(** The test of the final [filter]: [r["PRODUCT NAME"]?.trim()] is truthy. *)
Definition hasProductName (r : gmap string JsValue) : Completion bool :=
  match optionalTrim (getProp r "PRODUCT NAME") with
  | Throw => Throw
  | Normal None => Normal false
  | Normal (Some val) => Normal (negb (isEmpty val))
  end.

Fixpoint filterRows (parsed : list (gmap string JsValue))
  : Completion (list (gmap string JsValue)) :=
  match parsed with
  | [] => Normal []
  | r :: rest =>
      match hasProductName r with
      | Throw => Throw
      | Normal keep =>
          match filterRows rest with
          | Throw => Throw
          | Normal kept => Normal (if keep then r :: kept else kept)
          end
      end
  end.

Definition readExcelSmart (rows : list (list JsValue))
  : Completion (list (gmap string JsValue)) :=
  match findIndex isHeaderRow rows with
  | None => Throw
  | Some headerRowIndex =>
      match headerCells (default [] (rows !! headerRowIndex)) with
      | Throw => Throw
      | Normal header =>
          let dataRows := drop (headerRowIndex + 1) rows in
          let parsed := map (rowObject header) dataRows in
          filterRows parsed
      end
  end.

(** The product name under which the upload loop writes a row, if any. *)
Definition usableKey (row : gmap string JsValue) : option string :=
  match optionalTrim (getProp row "PRODUCT NAME") with
  | Normal (Some key) => if isEmpty key then None else Some key
  | _ => None
  end.

(** The name cell of a row makes [row["PRODUCT NAME"]?.trim()] throw. *)
Definition nameThrows (row : gmap string JsValue) : bool :=
  match optionalTrim (getProp row "PRODUCT NAME") with
  | Throw => true
  | Normal _ => false
  end.

(* ====================================================================== *)
(** ** Search by active ingredient *)
(* ====================================================================== *)

(** The fields of a record that [GET /search/salt] returns. *)
Record SaltHit := {
  hitName : string;
  hitContents : option string;
  hitType : option MedType;
  hitPacking : option string;
  hitPtr : option float;
  hitMrp : option float
}.

Definition saltHit (r : Medicine) : SaltHit :=
  {| hitName := name r; hitContents := contents r; hitType := type r;
     hitPacking := packing r; hitPtr := ptr r; hitMrp := mrp r |}.

(** [salt: { contains: q, mode: "insensitive" }]: a null salt never matches. *)
Definition saltContains (q : string) (r : Medicine) : bool :=
  match salt r with
  | Some s => includes (toLowerCase s) (toLowerCase q)
  | None => false
  end.

(** [findMany({ where: { salt: { contains, mode } }, orderBy: { ptr: 'asc' } })]. *)
Definition findManySaltContains (table : list Medicine) (q : string) : list Medicine :=
  orderByPtr (List.filter (saltContains q) table).

Inductive SaltResponse :=
  | SaltBadRequest
  | SaltNotFound
  | SaltFound (saltKey : string) (generics branded : list SaltHit) (totalResults : nat).

(** [GET /search/salt]; [query] is [req.query.name]. *)
Definition searchSalt (branded generic : list Medicine) (query : option string)
  : SaltResponse :=
  match query with
  | None => SaltBadRequest
  | Some q =>
      if isEmpty q then SaltBadRequest
      else
        let normalizedQuery := trim (toUpperCase q) in
        let generics := findManySaltContains generic normalizedQuery in
        let brandedRows := findManySaltContains branded normalizedQuery in
        if Nat.eqb (length generics) 0 && Nat.eqb (length brandedRows) 0
        then SaltNotFound
        else SaltFound normalizedQuery (map saltHit generics) (map saltHit brandedRows)
                       (length generics + length brandedRows)
  end.

(* ====================================================================== *)
(** ** The first copy of the server *)
(* ====================================================================== *)

(** The sources hold an earlier copy of the server (the first part of
    [server.js], again in [unnamed/part_000]): [extractSalt] without the
    trim, uploads that leave an existing row alone, a search by substring
    alone. *)
Module Legacy.

(** [contents || null]. *)
Definition orNull (v : JsValue) : JsValue := if toBoolean v then v else VNull.

(** [extractSalt]: on a truthy value that is not a string,
    [contents.split] is not a function. *)
Definition extractSalt (contents : JsValue) : Completion (option string) :=
  if negb (toBoolean contents) then Normal None
  else
    match contents with
    | VString s =>
        if listIncludes ["#N/A"; "N/A"; "NA"] s then Normal None
        else
          let parts := split " " s in
          let saltParts := saltPartsOf parts in
          let salt := toUpperCase (trim (join " " saltParts)) in
          Normal (if isEmpty salt then None else Some salt)
    | _ => Throw
    end.

(** The [create] data of [POST /upload/branded]; the record has no type. *)
Definition createData (key : string) (row : gmap string JsValue)
    (salt_ : option string) : Medicine :=
  {| name := key;
     salt := salt_;
     contents := match orNull (getProp row "CONTENTS") with
                 | VString s => Some s
                 | _ => None
                 end;
     type := None;
     packing := packingField (getProp row "PACKING");
     ptr := floatField (getProp row "PTR");
     mrp := floatField (getProp row "MRP");
     shipperSize := intField (getProp row "SHIPPER SIZE") |}.

(** One turn of the loop of [POST /upload/branded]: [update: {}] leaves an
    existing row as it is. *)
Definition uploadRow (table : list Medicine) (row : gmap string JsValue)
  : Completion (list Medicine) :=
  match optionalTrim (getProp row "PRODUCT NAME") with
  | Throw => Throw
  | Normal None => Normal table
  | Normal (Some key) =>
      if isEmpty key then Normal table
      else
        match extractSalt (orNull (getProp row "CONTENTS")) with
        | Throw => Throw
        | Normal salt_ =>
            Normal (upsert table key (fun old => old) (createData key row salt_))
        end
  end.

Fixpoint uploadRows (rows : list (gmap string JsValue)) (table : list Medicine)
  : list Medicine * bool :=
  match rows with
  | [] => (table, true)
  | row :: rest =>
      match uploadRow table row with
      | Throw => (table, false)
      | Normal table' => uploadRows rest table'
      end
  end.

Inductive SearchResponse :=
  | BadRequest
  | NotFound
  | Found (branded : string) (generic : option string) (salt_ : option string).

(** [GET /search/branded]: the first brand whose name contains the query,
    and the first generic found by [where: { salt: branded.salt }]. *)
Definition searchBranded (branded generic : list Medicine) (query : option string)
  : SearchResponse :=
  match query with
  | None => BadRequest
  | Some q =>
      if isEmpty q then BadRequest
      else
        match findFirstContains branded q with
        | None => NotFound
        | Some b =>
            let g := List.find (whereHolds (objectLiteral [("salt", FEquals (salt b))]))
                               generic in
            Found (name b)
                  (match g with
                   | Some g => if isEmpty (name g) then None else Some (name g)
                   | None => None
                   end)
                  (salt b)
        end
  end.

End Legacy.

(* ====================================================================== *)
(** ** The keywords that decide the dosage form *)
(* ====================================================================== *)

(** The first-match search of [detectTypeSpec] over any keyword table. *)
Definition classifyWith (table : list (MedType * list string))
    (productName : option string) : option MedType :=
  match productName with
  | None => None
  | Some productName =>
      if isEmpty productName then None
      else
        match List.find (fun cat => existsb (includes (toUpperCase productName)) cat.2)
                        table with
        | Some cat => Some cat.1
        | None => Some OTHER
        end
  end.

(** The table without the keywords that hold an earlier keyword. *)
Definition decidingKeywords : list (MedType * list string) :=
  [ (TABLET, ["TAB"]);
    (CAPSULE, ["CAP"]);
    (INJECTION, ["INJ"]);
    (SYRUP, ["SYR"; "SUSP"]);
    (TOPICAL, ["CREAM"; "OINTMENT"; "GEL"]);
    (DROPS, ["DROP"]);
    (POWDER, ["POWDER"; "SACHET"]);
    (INHALER, ["INHALER"; "RESPULE"]) ].

(** Every character of [s] passes the test [p]. *)
Fixpoint allChars (p : ascii -> bool) (s : string) : bool :=
  match s with
  | EmptyString => true
  | String c s' => p c && allChars p s'
  end.

Definition notParen (c : ascii) : bool := negb (Ascii.eqb c "(" || Ascii.eqb c ")").

Definition upperFixed (c : ascii) : bool := Ascii.eqb (upperChar c) c.

Definition spaceIfWhite (c : ascii) : bool := negb (isWhiteSpace c) || Ascii.eqb c " ".

(** A record has a salt. *)
Definition hasSalt (r : Medicine) : bool :=
  match salt r with Some _ => true | None => false end.

(* ====================================================================== *)
(** ** Strings: prefixes and substrings *)
(* ====================================================================== *)

Section StringFacts.

Lemma append_nil_l (s : string) : "" +:+ s = s.
Proof. reflexivity. Qed.

Lemma append_cons (c : ascii) (s t : string) :
  String c s +:+ t = String c (s +:+ t).
Proof. reflexivity. Qed.

Lemma append_assoc (s t u : string) : (s +:+ t) +:+ u = s +:+ (t +:+ u).
Proof.
  induction s as [|c s IH]; [reflexivity|].
  rewrite !append_cons, IH. reflexivity.
Qed.

Lemma prefix_spec (n s : string) :
  String.prefix n s = true <-> exists post, s = n +:+ post.
Proof.
  revert s. induction n as [|a n IH]; intros s.
  - split; [intros _; exists s; reflexivity|intros _; destruct s; reflexivity].
  - destruct s as [|b s]; simpl.
    + split; [discriminate|intros [post H]; discriminate].
    + destruct (ascii_dec a b) as [->|Hne].
      * rewrite IH. split; intros [post H]; exists post.
        -- rewrite append_cons, H. reflexivity.
        -- rewrite append_cons in H. congruence.
      * split; [discriminate|].
        intros [post H]. rewrite append_cons in H. congruence.
Qed.

Lemma includes_spec (s n : string) :
  includes s n = true <-> exists pre post, s = pre +:+ n +:+ post.
Proof.
  induction s as [|c s IH].
  - cbn [includes]. rewrite orb_false_r, prefix_spec. split.
    + intros [post H]. exists "", post. exact H.
    + intros [pre [post H]]. destruct pre; [exists post; exact H|discriminate].
  - cbn [includes]. rewrite orb_true_iff, prefix_spec, IH. split.
    + intros [[post H]|[pre [post H]]].
      * exists "", post. exact H.
      * exists (String c pre), post. rewrite append_cons, H. reflexivity.
    + intros [pre [post H]]. destruct pre as [|c' pre].
      * left. exists post. exact H.
      * right. rewrite append_cons in H. injection H as _ H.
        exists pre, post. exact H.
Qed.

(** A substring of a substring is a substring. *)
Lemma includes_trans (s n m : string) :
  includes s n = true -> includes n m = true -> includes s m = true.
Proof.
  rewrite !includes_spec. intros [p1 [q1 H1]] [p2 [q2 H2]].
  exists (p1 +:+ p2), (q2 +:+ q1). subst.
  rewrite !append_assoc. reflexivity.
Qed.

End StringFacts.

(* ====================================================================== *)
(** ** The type classifier *)
(* ====================================================================== *)

Section TypeClassifier.

Ltac split_includes :=
  repeat match goal with
         | |- context [includes ?a ?b] => destruct (includes a b); simpl; try reflexivity
         end.

(** The cascade of [if]s of [detectType] is the first-match search of the
    keyword table. *)
Lemma detectType_table (productName : option string) :
  detectType productName = detectTypeSpec productName.
Proof.
  destruct productName as [n|]; [|reflexivity].
  unfold detectType, detectTypeSpec.
  destruct (isEmpty n); [reflexivity|].
  simpl. generalize (toUpperCase n). intros u.
  split_includes.
Qed.

(** C7: [detectType] is null on a null or empty name; otherwise the name
    is upper-cased, so that a name in lower or mixed case classifies as its
    upper-case form does, and tested against the keyword sets in the order
    TABLET, CAPSULE, INJECTION, SYRUP, TOPICAL, DROPS, POWDER, INHALER, the
    first category that has a keyword in the name wins, and OTHER is
    returned when none has; the four sample names classify as stated, in
    upper and in lower case, and a name with keywords of two categories
    takes the earlier one. *)
Theorem detectType_first_match :
  detectType None = None
  /\ detectType (Some "") = None
  /\ (forall n : string, detectType (Some n) = detectTypeSpec (Some n))
  /\ map fst categoryKeywords
     = [TABLET; CAPSULE; INJECTION; SYRUP; TOPICAL; DROPS; POWDER; INHALER]
  /\ detectType (Some "PARACETAMOL TAB") = Some TABLET
  /\ detectType (Some "COUGH SYRUP") = Some SYRUP
  /\ detectType (Some "VITAMIN DROPS") = Some DROPS
  /\ detectType (Some "XYZ UNKNOWN") = Some OTHER
  /\ toUpperCase "abcdefghijklmnopqrstuvwxyz ABCXYZ 0189 -/#()"
     = "ABCDEFGHIJKLMNOPQRSTUVWXYZ ABCXYZ 0189 -/#()"
  /\ detectType (Some "paracetamol tab") = Some TABLET
  /\ detectType (Some "Cough Syrup") = Some SYRUP
  /\ detectType (Some "vitamin drops") = Some DROPS
  /\ detectType (Some "xyz unknown") = Some OTHER
  /\ detectType (Some "Crocin Tablet") = Some TABLET
  /\ detectType (Some "amoxil cap") = Some CAPSULE
  /\ detectType (Some "insulin inj") = Some INJECTION
  /\ detectType (Some "zincovit susp") = Some SYRUP
  /\ detectType (Some "betnovate cream") = Some TOPICAL
  /\ detectType (Some "ors sachet") = Some POWDER
  /\ detectType (Some "asthalin inhaler") = Some INHALER
  /\ detectType (Some "cap inj") = Some CAPSULE
  /\ detectType (Some "inj cap") = Some CAPSULE
  /\ detectType (Some "syrup drops gel") = Some SYRUP
  /\ detectType (Some "powder for inhaler") = Some POWDER.
Proof.
  repeat split; try reflexivity.
  intros n. apply detectType_table.
Qed.

(** C9, as stated, fails on a name that also holds "TAB": the TABLET test
    comes first. *)
Lemma detectType_rotacap_tab_not_capsule :
  includes (toUpperCase "ROTACAP TAB") "ROTACAP" = true
  /\ detectType (Some "ROTACAP TAB") <> Some CAPSULE.
Proof. split; [reflexivity|]. vm_compute. discriminate. Qed.

(** C9, amended: a name whose upper-cased form holds "ROTACAP" is
    classified TABLET when it also holds "TAB" and CAPSULE otherwise, and
    never INHALER. *)
Theorem detectType_rotacap (n : string) :
  includes (toUpperCase n) "ROTACAP" = true ->
  detectType (Some n)
  = Some (if includes (toUpperCase n) "TAB" then TABLET else CAPSULE)
  /\ detectType (Some n) <> Some INHALER.
Proof.
  intros H.
  assert (Hcap : includes (toUpperCase n) "CAP" = true).
  { apply (includes_trans _ _ _ H). reflexivity. }
  assert (Hne : isEmpty n = false).
  { destruct n; [discriminate H|reflexivity]. }
  unfold detectType. rewrite Hne, Hcap.
  destruct (includes (toUpperCase n) "TAB") eqn:Htab; simpl.
  - split; congruence.
  - destruct (includes (toUpperCase n) "TABLET") eqn:Htablet.
    + rewrite (includes_trans _ _ "TAB" Htablet) in Htab by reflexivity.
      discriminate.
    + split; congruence.
Qed.

Lemma detectType_rotacap_witness :
  detectType (Some "ROTACAP 200") = Some CAPSULE
  /\ detectType (Some "ROTACAP 200") <> Some INHALER.
Proof. apply (detectType_rotacap "ROTACAP 200"). reflexivity. Defined.

End TypeClassifier.

(* ====================================================================== *)
(** ** The similarity scorer *)
(* ====================================================================== *)

Section Levenshtein.

Lemma levD_0_l (s1 s2 : string) (j : nat) : levD s1 s2 0 j = j.
Proof. reflexivity. Qed.

Lemma levD_0_r (s1 s2 : string) (i : nat) : levD s1 s2 i 0 = i.
Proof. destruct i; reflexivity. Qed.

Lemma levD_S_S (s1 s2 : string) (i j : nat) :
  levD s1 s2 (S i) (S j)
  = min3 (levD s1 s2 i (S j) + 1)
         (levD s1 s2 (S i) j + 1)
         (levD s1 s2 i j + cost s1 s2 (S i) (S j)).
Proof. reflexivity. Qed.

Lemma cost_sym (s1 s2 : string) (i j : nat) : cost s1 s2 i j = cost s2 s1 j i.
Proof.
  unfold cost. repeat case_bool_decide; congruence.
Qed.

Lemma cost_le_1 (s1 s2 : string) (i j : nat) : cost s1 s2 i j <= 1.
Proof. unfold cost. case_bool_decide; lia. Qed.

Lemma levD_sym (s1 s2 : string) (i j : nat) :
  levD s1 s2 i j = levD s2 s1 j i.
Proof.
  revert j. induction i as [|i IHi]; intros j.
  - rewrite levD_0_l, levD_0_r. reflexivity.
  - induction j as [|j IHj].
    + rewrite levD_0_l, levD_0_r. reflexivity.
    + rewrite !levD_S_S, IHj, !IHi, (cost_sym s1 s2).
      unfold min3. lia.
Qed.

Lemma levD_le_max (s1 s2 : string) (i j : nat) :
  levD s1 s2 i j <= Nat.max i j.
Proof.
  revert j. induction i as [|i IHi]; intros j.
  - rewrite levD_0_l. lia.
  - destruct j as [|j].
    + rewrite levD_0_r. lia.
    + rewrite levD_S_S. pose proof (IHi j). pose proof (cost_le_1 s1 s2 (S i) (S j)).
      unfold min3. lia.
Qed.

(** *** The matrix of [levenshteinDistance] holds the recurrence *)

Lemma shape_mset rows cols m i j v :
  shape rows cols m -> shape rows cols (mset m i j v).
Proof.
  intros [Hl Hr]. split.
  - unfold mset. rewrite length_alter. exact Hl.
  - unfold mset. apply Forall_alter; [exact Hr|].
    intros r _ Hlen. rewrite length_insert. exact Hlen.
Qed.

Lemma mget_mset_eq rows cols m i j v :
  shape rows cols m -> i < rows -> j < cols -> mget (mset m i j v) i j = v.
Proof.
  intros [Hl Hr] Hi Hj. unfold mget, mset.
  rewrite list_lookup_alter_eq.
  destruct (lookup_lt_is_Some_2 m i) as [r Hrow]; [lia|].
  rewrite Hrow. simpl.
  rewrite list_lookup_insert_eq; [reflexivity|].
  rewrite (Forall_lookup_1 _ _ _ _ Hr Hrow). exact Hj.
Qed.

Lemma mget_mset_ne m i j v a b :
  a <> i \/ b <> j -> mget (mset m i j v) a b = mget m a b.
Proof.
  intros Hne. unfold mget, mset.
  destruct (decide (a = i)) as [->|Hai].
  - rewrite list_lookup_alter_eq. destruct (m !! i) as [r|]; [|reflexivity].
    simpl. rewrite list_lookup_insert_ne; [reflexivity|]. intros ->. tauto.
  - rewrite list_lookup_alter_ne by congruence. reflexivity.
Qed.

(** A loop [for (k = start; k < start + n; k++)] keeps an invariant. *)
Lemma foldl_seq_invariant {A : Type} (f : A -> nat -> A) (P : nat -> A -> Prop)
    (n start : nat) (a : A) :
  P start a ->
  (forall k x, start <= k < start + n -> P k x -> P (S k) (f x k)) ->
  P (start + n) (foldl f a (seq start n)).
Proof.
  revert start a. induction n as [|n IH]; intros start a H0 Hstep.
  - rewrite Nat.add_0_r. exact H0.
  - simpl. replace (start + S n) with (S start + n) by lia.
    apply IH.
    + apply Hstep; [lia|exact H0].
    + intros k x Hk. apply Hstep. lia.
Qed.

Lemma levInit_spec (len1 len2 : nat) :
  shape (len1 + 1) (len2 + 1) (levInit len1 len2)
  /\ (forall a, a <= len1 -> mget (levInit len1 len2) a 0 = a)
  /\ (forall b, b <= len2 -> mget (levInit len1 len2) 0 b = b).
Proof.
  unfold levInit.
  set (m0 := replicate (len1 + 1) (replicate (len2 + 1) 0)).
  assert (H0 : shape (len1 + 1) (len2 + 1) m0).
  { split; [apply length_replicate|].
    apply Forall_replicate. apply length_replicate. }
  set (m1 := foldl (fun m i => mset m i 0 i) m0 (seq 0 (len1 + 1))).
  assert (H1 : shape (len1 + 1) (len2 + 1) m1
               /\ forall a, a < 0 + (len1 + 1) -> mget m1 a 0 = a).
  { apply (foldl_seq_invariant (fun m i => mset m i 0 i)
             (fun k m => shape (len1 + 1) (len2 + 1) m
                         /\ forall a, a < k -> mget m a 0 = a)).
    - split; [exact H0|]. intros a Ha. lia.
    - intros k x Hk [Hs Hc]. split; [apply shape_mset; exact Hs|].
      intros a Ha. destruct (decide (a = k)) as [->|Hne].
      + apply (mget_mset_eq _ _ _ _ _ _ Hs); lia.
      + rewrite mget_mset_ne by tauto. apply Hc. lia. }
  destruct H1 as [Hs1 Hc1].
  pose proof (foldl_seq_invariant (fun m j => mset m 0 j j)
             (fun k m => shape (len1 + 1) (len2 + 1) m
                         /\ (forall a, a <= len1 -> mget m a 0 = a)
                         /\ forall b, b < k -> mget m 0 b = b)
             (len2 + 1) 0 m1) as H2.
  destruct H2 as [Hs2 [Hc2 Hr2]].
  - split; [exact Hs1|]. split; [|intros b Hb; lia].
    intros a Ha. apply Hc1. lia.
  - intros k x Hk [Hs [Hc Hr]]. split; [apply shape_mset; exact Hs|]. split.
    + intros a Ha. destruct (decide (a = 0 /\ k = 0)) as [[-> ->]|Hne].
      * apply (mget_mset_eq _ _ _ _ _ _ Hs); lia.
      * rewrite mget_mset_ne by lia. apply Hc. exact Ha.
    + intros b Hb. destruct (decide (b = k)) as [->|Hne].
      * apply (mget_mset_eq _ _ _ _ _ _ Hs); lia.
      * rewrite mget_mset_ne by tauto. apply Hr. lia.
  - split; [exact Hs2|]. split; [exact Hc2|].
    intros b Hb. apply Hr2. lia.
Qed.

Lemma levCell_filled (s1 s2 : string) (i j : nat) (m : list (list nat)) :
  1 <= i <= String.length s1 -> 1 <= j <= String.length s2 ->
  filled s1 s2 i j m -> filled s1 s2 i (S j) (levCell s1 s2 i m j).
Proof.
  intros Hi Hj [Hs Hf]. split; [apply shape_mset; exact Hs|].
  intros a b Ha Hb Hab. unfold levCell.
  destruct (decide (a = i /\ b = j)) as [[-> ->]|Hne].
  - rewrite (mget_mset_eq _ _ _ _ _ _ Hs) by lia.
    destruct i as [|i]; [lia|]. destruct j as [|j]; [lia|].
    rewrite levD_S_S. simpl. rewrite !Nat.sub_0_r.
    rewrite !Hf by lia. reflexivity.
  - rewrite mget_mset_ne by lia. apply Hf; lia.
Qed.

Lemma levRow_filled (s1 s2 : string) (i : nat) (m : list (list nat)) :
  1 <= i <= String.length s1 ->
  filled s1 s2 i 1 m -> filled s1 s2 (S i) 1 (levRow s1 s2 (String.length s2) m i).
Proof.
  intros Hi Hm. unfold levRow.
  pose proof (foldl_seq_invariant (levCell s1 s2 i) (filled s1 s2 i)
                (String.length s2) 1 m Hm) as H.
  destruct H as [Hs Hf].
  - intros k x Hk Hx. apply levCell_filled; [exact Hi|lia|exact Hx].
  - split; [exact Hs|]. intros a b Ha Hb Hab. apply Hf; lia.
Qed.

Lemma levMatrix_filled (s1 s2 : string) :
  filled s1 s2 (1 + String.length s1) 1 (levMatrix s1 s2).
Proof.
  unfold levMatrix.
  apply (foldl_seq_invariant (levRow s1 s2 (String.length s2))
           (fun i m => filled s1 s2 i 1 m)).
  - destruct (levInit_spec (String.length s1) (String.length s2)) as [Hs [Hc Hr]].
    split; [exact Hs|]. intros a b Ha Hb Hab.
    destruct (decide (b = 0)) as [->|Hb0].
    + rewrite levD_0_r. apply Hc. exact Ha.
    + assert (a = 0) as -> by lia. rewrite levD_0_l. apply Hr. exact Hb.
  - intros k x Hk Hx. apply levRow_filled; [lia|exact Hx].
Qed.

(** The matrix computation returns the distance of the recurrence. *)
Lemma levenshteinDistance_levD (s1 s2 : string) :
  levenshteinDistance s1 s2 = levD s1 s2 (String.length s1) (String.length s2).
Proof.
  unfold levenshteinDistance.
  destruct (levMatrix_filled s1 s2) as [_ Hf]. apply Hf; lia.
Qed.

Lemma levenshteinDistance_sym (s1 s2 : string) :
  levenshteinDistance s1 s2 = levenshteinDistance s2 s1.
Proof. rewrite !levenshteinDistance_levD. apply levD_sym. Qed.

Lemma levenshteinDistance_le_max (s1 s2 : string) :
  levenshteinDistance s1 s2 <= Nat.max (String.length s1) (String.length s2).
Proof. rewrite levenshteinDistance_levD. apply levD_le_max. Qed.

(** *** The score *)


(** The value of [similarityScore] in terms of the trimmed, lower-cased
    inputs. *)
Lemma similarityScore_value (a b : string) :
  similarityScore a b
  = if String.eqb (trim (toLowerCase a)) (trim (toLowerCase b)) then 1%Q
    else (1 - inject_Z (Z.of_nat (levenshteinDistance (trim (toLowerCase a))
                                                      (trim (toLowerCase b))))
              / inject_Z (Z.of_nat (Nat.max (String.length (trim (toLowerCase a)))
                                            (String.length (trim (toLowerCase b))))))%Q.
Proof.
  unfold similarityScore.
  destruct (String.eqb_spec (trim (toLowerCase a)) (trim (toLowerCase b))) as [He|Hne];
    [reflexivity|].
  destruct (Nat.eqb_spec (Nat.max (String.length (trim (toLowerCase a)))
                                  (String.length (trim (toLowerCase b)))) 0)
    as [Hz|Hnz]; [|reflexivity].
  exfalso. apply Hne.
  destruct (trim (toLowerCase a)), (trim (toLowerCase b)); simpl in Hz;
    try reflexivity; lia.
Qed.




(** C10: the scorer is symmetric. *)
Theorem similarityScore_sym (a b : string) :
  similarityScore a b = similarityScore b a.
Proof.
  unfold similarityScore.
  rewrite (String.eqb_sym (trim (toLowerCase a))).
  rewrite (Nat.max_comm (String.length (trim (toLowerCase a)))).
  rewrite (levenshteinDistance_sym (trim (toLowerCase a))).
  reflexivity.
Qed.

End Levenshtein.

(* ====================================================================== *)
(** ** The salt extractor *)
(* ====================================================================== *)

Section SaltExtractor.

Lemma whitespace_not_digit (c : ascii) : isWhiteSpace c = true -> isDigit c = false.
Proof.
  unfold isWhiteSpace, isDigit, between. generalize (code c). intros n H.
  apply not_true_iff_false. intros D.
  rewrite ?orb_true_iff, ?andb_true_iff, ?Nat.leb_le, ?Nat.eqb_eq in *. lia.
Qed.

Lemma split_cons (c : ascii) (s : string) :
  split " " (String c s)
  = if Ascii.eqb c " " then "" :: split " " s
    else String c (hd "" (split " " s)) :: tl (split " " s).
Proof.
  cbn [split]. destruct (Ascii.eqb c " "); [reflexivity|].
  destruct (split " " s); reflexivity.
Qed.

Lemma split_hd_tl (s : string) :
  split " " s = hd "" (split " " s) :: tl (split " " s).
Proof.
  destruct s as [|c s]; [reflexivity|].
  rewrite split_cons. destruct (Ascii.eqb c " "); reflexivity.
Qed.

Lemma headDigit_cons (c : ascii) (s : string) :
  headDigit (String c s) = if Ascii.eqb c " " then false else isDigit c || headDigit s.
Proof.
  unfold headDigit. rewrite split_cons.
  destruct (Ascii.eqb c " "); reflexivity.
Qed.

Lemma keptText_headDigit (s : string) : headDigit s = true -> keptText s = "".
Proof.
  unfold headDigit, keptText. intros H.
  rewrite split_hd_tl. cbn [saltPartsOf]. rewrite H. reflexivity.
Qed.

Lemma saltPartsOf_headDigit (s : string) :
  headDigit s = false ->
  saltPartsOf (split " " s) = hd "" (split " " s) :: saltPartsOf (tl (split " " s)).
Proof.
  unfold headDigit. intros H.
  rewrite split_hd_tl at 1. cbn [saltPartsOf]. rewrite H. reflexivity.
Qed.

Lemma keptText_cons (c : ascii) (s : string) :
  keptText (String c s) = if stopsAt c s then "" else String c (keptText s).
Proof.
  unfold stopsAt. destruct (Ascii.eqb c " ") eqn:Hc.
  - apply Ascii.eqb_eq in Hc. subst c.
    destruct (headDigit s) eqn:Hd.
    + unfold keptText. rewrite split_cons. simpl Ascii.eqb. cbn [saltPartsOf testDigit].
      unfold headDigit in Hd. rewrite split_hd_tl. cbn [saltPartsOf]. rewrite Hd.
      reflexivity.
    + unfold keptText. rewrite split_cons. simpl Ascii.eqb. cbn [saltPartsOf testDigit].
      rewrite (saltPartsOf_headDigit s Hd). reflexivity.
  - destruct (isDigit c || headDigit s) eqn:Hd.
    + unfold keptText. rewrite split_cons, Hc. cbn [saltPartsOf testDigit].
      fold (headDigit s). rewrite Hd. reflexivity.
    + unfold keptText. rewrite split_cons, Hc. cbn [saltPartsOf testDigit].
      fold (headDigit s). rewrite Hd.
      apply orb_false_iff in Hd as [_ Hd].
      rewrite (saltPartsOf_headDigit s Hd).
      unfold join. cbn [String.concat].
      destruct (saltPartsOf (tl (split " " s))); reflexivity.
  Qed.

Lemma trimStart_whitespace (c : ascii) (s : string) :
  isWhiteSpace c = true -> trim (String c s) = trim s.
Proof. intros H. unfold trim. cbn [trimStart]. rewrite H. reflexivity. Qed.

Lemma stopsAt_whitespace (c : ascii) (s : string) :
  isWhiteSpace c = true -> stopsAt c s = headDigit s.
Proof.
  intros H. unfold stopsAt. destruct (Ascii.eqb c " "); [reflexivity|].
  rewrite (whitespace_not_digit c H). reflexivity.
Qed.

(** Leading white space of the input does not change the trimmed result. *)
Lemma keptText_trimStart (s : string) :
  trim (keptText s) = trim (keptText (trimStart s)).
Proof.
  induction s as [|c s IH]; [reflexivity|].
  cbn [trimStart]. destruct (isWhiteSpace c) eqn:Hw; [|reflexivity].
  rewrite <- IH, keptText_cons, (stopsAt_whitespace c s Hw).
  destruct (headDigit s) eqn:Hd.
  - rewrite (keptText_headDigit s Hd). reflexivity.
  - apply trimStart_whitespace. exact Hw.
Qed.

Lemma trimEnd_cons (c : ascii) (s : string) :
  trimEnd (String c s)
  = if isEmpty (trimEnd s) then (if isWhiteSpace c then "" else String c "")
    else String c (trimEnd s).
Proof. cbn [trimEnd]. destruct (trimEnd s); reflexivity. Qed.

Lemma headDigit_trimEnd (s : string) : headDigit (trimEnd s) = headDigit s.
Proof.
  induction s as [|c s IH]; [reflexivity|].
  rewrite trimEnd_cons, (headDigit_cons c s), <- IH.
  destruct (trimEnd s) as [|d t] eqn:Ht; cbn [isEmpty].
  - destruct (isWhiteSpace c) eqn:Hw.
    + rewrite (whitespace_not_digit c Hw). destruct (Ascii.eqb c " "); reflexivity.
    + rewrite headDigit_cons. reflexivity.
  - rewrite headDigit_cons. reflexivity.
Qed.

Lemma stopsAt_trimEnd (c : ascii) (s : string) : stopsAt c (trimEnd s) = stopsAt c s.
Proof. unfold stopsAt. rewrite headDigit_trimEnd. reflexivity. Qed.

(** Trailing white space of the input does not change the result either. *)
Lemma keptText_trimEnd (s : string) :
  trimEnd (keptText s) = trimEnd (keptText (trimEnd s)).
Proof.
  induction s as [|c s IH]; [reflexivity|].
  rewrite keptText_cons, (trimEnd_cons c s).
  destruct (trimEnd s) as [|d t] eqn:Ht; cbn [isEmpty].
  - destruct (isWhiteSpace c) eqn:Hw.
    + destruct (stopsAt c s); [reflexivity|].
      rewrite trimEnd_cons, IH. cbn. rewrite Hw. reflexivity.
    + rewrite keptText_cons, <- (stopsAt_trimEnd c s), Ht.
      destruct (stopsAt c ""); [reflexivity|].
      rewrite !trimEnd_cons, IH. reflexivity.
  - rewrite keptText_cons, <- (stopsAt_trimEnd c s), Ht.
    destruct (stopsAt c (String d t)); [reflexivity|].
    rewrite !trimEnd_cons, IH. reflexivity.
Qed.

Lemma trimEnd_trimStart (s : string) : trimEnd (trimStart s) = trimStart (trimEnd s).
Proof.
  induction s as [|c s IH]; [reflexivity|].
  cbn [trimStart]. rewrite trimEnd_cons.
  destruct (isWhiteSpace c) eqn:Hw.
  - rewrite IH. destruct (trimEnd s) as [|d t]; cbn [isEmpty]; [reflexivity|].
    cbn [trimStart]. rewrite Hw. reflexivity.
  - rewrite trimEnd_cons.
    destruct (trimEnd s) as [|d t]; cbn [isEmpty trimStart]; rewrite Hw; reflexivity.
Qed.

(** Splitting the raw input or the trimmed input gives the same salt. *)
Lemma keptText_trim (s : string) : trim (keptText s) = trim (keptText (trim s)).
Proof.
  rewrite (keptText_trimStart s). unfold trim.
  rewrite (trimEnd_trimStart (keptText (trimStart s))).
  rewrite (keptText_trimEnd (trimStart s)).
  rewrite <- (trimEnd_trimStart (keptText (trimEnd (trimStart s)))).
  reflexivity.
Qed.

(** The loop keeps the parts before the first one that holds a digit. *)
Lemma saltPartsOf_take (tokens : list string) :
  saltPartsOf tokens
  = match list_find (fun t => testDigit t = true) tokens with
    | Some (k, _) => take k tokens
    | None => tokens
    end.
Proof.
  induction tokens as [|t ts IH]; [reflexivity|].
  cbn [saltPartsOf list_find]. case_decide as Ht.
  - rewrite Ht. reflexivity.
  - apply not_true_is_false in Ht. rewrite Ht, IH.
    destruct (list_find _ ts) as [[k x]|]; reflexivity.
Qed.

Lemma extractSalt_string (s : string) :
  extractSalt (VString s) = extractSaltSpec (Some s).
Proof.
  unfold extractSalt, extractSaltSpec. cbn [toBoolean ToString].
  destruct (isEmpty s); [reflexivity|]. cbn [negb orb].
  destruct (listIncludes _ (trim s)); [reflexivity|].
  rewrite <- saltPartsOf_take.
  fold (keptText (trim s)). fold (keptText s).
  rewrite <- keptText_trim. reflexivity.
Qed.

Lemma sentinel_cases (s : string) :
  listIncludes ["#N/A"; "N/A"; "NA"] s = true -> s = "#N/A" \/ s = "N/A" \/ s = "NA".
Proof.
  cbn [listIncludes existsb]. rewrite orb_false_r, !orb_true_iff, !String.eqb_eq.
  tauto.
Qed.

(** C5, as stated, fails on a sentinel with white space around it: read by
    the words, [" N/A "] is not one of the three tokens, so it is split,
    joined and trimmed into the salt ["N/A"]; [extractSalt] trims before it
    looks for the sentinels and answers null. *)
Lemma extractSalt_padded_sentinel :
  extractSaltAsStated (Some " N/A ") = Some "N/A"
  /\ extractSalt (VString " N/A ") = None
  /\ extractSalt (VString " N/A ") <> extractSaltAsStated (Some " N/A ").
Proof.
  repeat split. discriminate.
Qed.

(** C5, amended: [extractSalt] is null on a null or empty input and on an
    input that is, once trimmed, one of the sentinel tokens #N/A, N/A, NA
    or empty; otherwise it splits the input on single spaces, keeps the
    tokens before the first one that holds a decimal digit, joins them
    with a single space, trims and upper-cases, and is null when that is
    empty.  So it differs from the stated procedure on the sentinels with
    white space around them and nowhere else; the sentinels are
    case-sensitive; white space around the input and lower case in it do
    not show in the result; the four sample inputs give the stated
    results. *)
Theorem extractSalt_spec :
  (forall s : string, extractSalt (VString s) = extractSaltSpec (Some s))
  /\ extractSalt VNull = extractSaltSpec None
  /\ extractSalt VNull = None
  /\ extractSalt VUndefined = None
  /\ extractSalt (VString "") = None
  /\ extractSalt (VString "#N/A") = None
  /\ extractSalt (VString "N/A") = None
  /\ extractSalt (VString "NA") = None
  /\ extractSalt (VString "PARACETAMOL 500MG") = Some "PARACETAMOL"
  /\ extractSalt (VString "500MG") = None
  /\ (forall s : string,
        extractSalt (VString s)
        = if listIncludes ["#N/A"; "N/A"; "NA"] (trim s) then None
          else extractSaltAsStated (Some s))
  /\ extractSalt (VString " N/A ") = None
  /\ extractSalt (VString "  #N/A") = None
  /\ extractSalt (VString "NA  ") = None
  /\ extractSalt (VString (String (ascii_of_nat 9) "N/A")) = None
  /\ extractSalt (VString "   ") = None
  /\ extractSalt (VString "n/a") = Some "N/A"
  /\ extractSalt (VString "N/A 5") = Some "N/A"
  /\ trim "  a  b  " = "a  b"
  /\ toUpperCase "abcdefghijklmnopqrstuvwxyz ABCXYZ 0189 -/#()"
     = "ABCDEFGHIJKLMNOPQRSTUVWXYZ ABCXYZ 0189 -/#()"
  /\ extractSalt (VString " PARACETAMOL 500MG") = Some "PARACETAMOL"
  /\ extractSalt (VString "  paracetamol 500mg  ") = Some "PARACETAMOL"
  /\ extractSalt (VString "Ibuprofen") = Some "IBUPROFEN"
  /\ extractSalt (VString " Amoxycillin  Clav 625 Duo") = Some "AMOXYCILLIN  CLAV"
  /\ extractSalt (VString "Vitamin B12 Complex") = Some "VITAMIN"
  /\ extractSalt (VString "diclofenac gel 1% w/w") = Some "DICLOFENAC GEL"
  /\ extractSalt (VString " 500mg paracetamol") = None.
Proof.
  split; [exact extractSalt_string|].
  repeat split; try reflexivity.
  intros s. rewrite extractSalt_string.
  unfold extractSaltSpec, extractSaltAsStated.
  rewrite <- saltPartsOf_take. fold (keptText s).
  destruct s as [|c s]; [reflexivity|].
  change (isEmpty (String c s)) with false. cbn [orb].
  set (u := String c s).
  destruct (listIncludes ["#N/A"; "N/A"; "NA"] (trim u)) eqn:Ht.
  { apply sentinel_cases in Ht as [E|[E|E]]; rewrite E; reflexivity. }
  destruct (listIncludes ["#N/A"; "N/A"; "NA"] u) eqn:Hs.
  { apply sentinel_cases in Hs as [E|[E|E]]; rewrite E in Ht; discriminate Ht. }
  cbn [listIncludes existsb] in Ht |- *.
  rewrite !orb_false_iff in Ht. destruct Ht as (H1 & H2 & H3 & _).
  rewrite H1, H2, H3. cbn [orb].
  destruct (String.eqb_spec (trim u) "") as [E|_]; [|reflexivity].
  rewrite (keptText_trim u), E. reflexivity.
Qed.

End SaltExtractor.

(* ====================================================================== *)
(** ** The match resolver *)
(* ====================================================================== *)

Section MatchResolver.

Lemma Qltb_lt (a b : Q) : Qltb a b = true <-> (a < b)%Q.
Proof.
  unfold Qltb. rewrite negb_true_iff, <- not_true_iff_false, Qle_bool_iff.
  split; [apply Qnot_le_lt|apply Qlt_not_le].
Qed.

Lemma Qltb_ge (a b : Q) : Qltb a b = false <-> (b <= a)%Q.
Proof.
  unfold Qltb. rewrite negb_false_iff, Qle_bool_iff. reflexivity.
Qed.

(** [find] returns the first element that passes the test. *)
Lemma find_first {A : Type} (p : A -> bool) (l : list A) (r : A) :
  List.find p l = Some r ->
  exists pre post, l = pre ++ r :: post /\ p r = true
                   /\ forall x, In x pre -> p x = false.
Proof.
  induction l as [|h t IH]; [discriminate|].
  cbn [List.find]. destruct (p h) eqn:Hh.
  - intros [= ->]. exists [], t. repeat split; [exact Hh|intros x []].
  - intros Hf. destruct (IH Hf) as [pre [post [-> [Hr Hpre]]]].
    exists (h :: pre), post. repeat split; [exact Hr|].
    intros x [<-|Hx]; [exact Hh|apply Hpre; exact Hx].
Qed.

Lemma find_is_Some {A : Type} (p : A -> bool) (l : list A) (r : A) :
  In r l -> p r = true -> exists r0, List.find p l = Some r0.
Proof.
  intros Hin Hp. destruct (List.find p l) as [r0|] eqn:Hf; [exists r0; reflexivity|].
  rewrite (List.find_none p l Hf r Hin) in Hp. discriminate.
Qed.

(** The step of the fuzzy loop: a candidate replaces the running best
    exactly when its score is above the running best and above 0.6. *)
Lemma fuzzyStep_rule (query : string) (best : option Medicine) (bestScore : Q)
    (medicine : Medicine) :
  fuzzyStep (normalizeString query) (best, bestScore) medicine
  = if Qltb bestScore (fuzzyScore query medicine)
       && Qltb threshold (fuzzyScore query medicine)
    then (Some medicine, fuzzyScore query medicine)
    else (best, bestScore).
Proof. reflexivity. Qed.

Lemma fuzzyLoop_invariant (query : string) (table : list Medicine) :
  fuzzyInvariant query table
    (foldl (fuzzyStep (normalizeString query)) (None, 0%Q) table).
Proof.
  induction table as [|m table IH] using rev_ind.
  - split; [reflexivity|intros x []].
  - rewrite foldl_app. cbn [foldl].
    destruct (foldl _ _ table) as [best bestScore].
    rewrite fuzzyStep_rule. unfold fuzzyInvariant in IH. cbn [fst snd] in IH.
    destruct (Qltb bestScore (fuzzyScore query m)) eqn:Hb;
      [destruct (Qltb threshold (fuzzyScore query m)) eqn:Ht|]; cbn [andb].
    + (* accepted *)
      apply Qltb_lt in Hb, Ht. unfold fuzzyInvariant. cbn [fst snd].
      split; [reflexivity|]. split; [exact Ht|].
      exists table, []. split; [reflexivity|]. split; [|intros x []].
      intros x Hx. destruct best as [m0|].
      * destruct IH as [Hs [_ [pre [post [-> [Hpre Hpost]]]]]]. rewrite Hs in Hb.
        apply in_app_or in Hx as [Hx|[<-|Hx]].
        -- eapply Qlt_trans; [apply Hpre; exact Hx|exact Hb].
        -- exact Hb.
        -- eapply Qle_lt_trans; [apply Hpost; exact Hx|exact Hb].
      * destruct IH as [_ Hall]. eapply Qle_lt_trans; [apply Hall; exact Hx|exact Ht].
    + (* above the running best but not above the threshold *)
      apply Qltb_lt in Hb. apply Qltb_ge in Ht.
      unfold fuzzyInvariant. cbn [fst snd]. destruct best as [m0|].
      * destruct IH as [Hs [Hthr _]]. rewrite Hs in Hb.
        exfalso. apply (Qlt_irrefl threshold).
        eapply Qlt_le_trans; [|exact Ht]. eapply Qlt_trans; [exact Hthr|exact Hb].
      * destruct IH as [Hs Hall]. split; [exact Hs|].
        intros x Hx. apply in_app_or in Hx as [Hx|[<-|[]]]; [apply Hall; exact Hx|exact Ht].
    + (* not above the running best *)
      apply Qltb_ge in Hb. unfold fuzzyInvariant. cbn [fst snd].
      destruct best as [m0|].
      * destruct IH as [Hs [Hthr [pre [post [-> [Hpre Hpost]]]]]].
        split; [exact Hs|]. split; [exact Hthr|].
        exists pre, (post ++ [m]). split; [rewrite <- app_assoc; reflexivity|].
        split; [exact Hpre|].
        intros x Hx. apply in_app_or in Hx as [Hx|[<-|[]]]; [apply Hpost; exact Hx|].
        rewrite <- Hs. exact Hb.
      * destruct IH as [Hs Hall]. split; [exact Hs|].
        intros x Hx. apply in_app_or in Hx as [Hx|[<-|[]]]; [apply Hall; exact Hx|].
        (* the best is still 0: the score is not above 0, hence not above 0.6 *)
        rewrite Hs in Hb. eapply Qle_trans; [exact Hb|]. discriminate.
Qed.

(** The fuzzy tier returns the first record that attains the highest score,
    provided that score is above 0.6. *)
Lemma fuzzyMatch_Some (table : list Medicine) (query : string) (m : Medicine) :
  fuzzyMatch table query = Some m ->
  (threshold < fuzzyScore query m)%Q
  /\ exists pre post,
       table = pre ++ m :: post
       /\ (forall x, In x pre -> (fuzzyScore query x < fuzzyScore query m)%Q)
       /\ (forall x, In x post -> (fuzzyScore query x <= fuzzyScore query m)%Q).
Proof.
  unfold fuzzyMatch. intros H.
  pose proof (fuzzyLoop_invariant query table) as Hinv.
  unfold fuzzyInvariant in Hinv. rewrite H in Hinv.
  destruct Hinv as [_ [Hthr Hrest]]. split; [exact Hthr|exact Hrest].
Qed.

(** It fails exactly when no record scores above 0.6. *)
Lemma fuzzyMatch_None (table : list Medicine) (query : string) :
  fuzzyMatch table query = None
  <-> forall x, In x table -> (fuzzyScore query x <= threshold)%Q.
Proof.
  unfold fuzzyMatch.
  pose proof (fuzzyLoop_invariant query table) as Hinv.
  unfold fuzzyInvariant in Hinv.
  destruct (foldl _ _ table).1 as [m|] eqn:Hb.
  - split; [discriminate|]. intros Hall.
    destruct Hinv as [_ [Hthr [pre [post [Ht _]]]]].
    exfalso. apply (Qlt_irrefl threshold).
    eapply Qlt_le_trans; [exact Hthr|]. apply Hall. rewrite Ht.
    apply in_or_app. right. left. reflexivity.
  - split; [intros _; apply Hinv|reflexivity].
Qed.

Lemma resolve_exact (table : list Medicine) (query : string) (r : Medicine) :
  In r table -> toLowerCase (name r) = toLowerCase query ->
  exists r0 pre post,
    resolve table query = Some r0
    /\ toLowerCase (name r0) = toLowerCase query
    /\ table = pre ++ r0 :: post
    /\ forall x, In x pre -> toLowerCase (name x) <> toLowerCase query.
Proof.
  intros Hin Heq.
  destruct (find_is_Some
              (fun x => String.eqb (toLowerCase (name x)) (toLowerCase query))
              table r Hin) as [r0 Hf].
  { apply String.eqb_eq. exact Heq. }
  destruct (find_first _ _ _ Hf) as [pre [post [Ht [Hr Hpre]]]].
  exists r0, pre, post. unfold resolve, findFirstEquals. rewrite Hf.
  split; [reflexivity|]. split; [apply String.eqb_eq; exact Hr|].
  split; [exact Ht|]. intros x Hx. apply String.eqb_neq. apply Hpre. exact Hx.
Qed.

Lemma resolve_None (table : list Medicine) (query : string) :
  resolve table query = None
  <-> forall x, In x table ->
        toLowerCase (name x) <> toLowerCase query
        /\ includes (toLowerCase (name x)) (toLowerCase query) = false
        /\ (fuzzyScore query x <= threshold)%Q.
Proof.
  unfold resolve, findFirstEquals, findFirstContains. split.
  - destruct (List.find _ table) eqn:H1; [discriminate|].
    destruct (List.find (fun r => includes _ _) table) eqn:H2; [discriminate|].
    intros H3 x Hx. split; [|split].
    + apply String.eqb_neq. apply (List.find_none _ _ H1 x Hx).
    + apply (List.find_none _ _ H2 x Hx).
    + apply (proj1 (fuzzyMatch_None table query) H3 x Hx).
  - intros Hall.
    destruct (List.find _ table) as [r|] eqn:H1.
    { destruct (find_first _ _ _ H1) as [pre [post [Ht [Hr _]]]].
      apply String.eqb_eq in Hr. exfalso.
      apply (proj1 (Hall r ltac:(rewrite Ht; apply in_or_app; right; left; reflexivity))).
      exact Hr. }
    destruct (List.find (fun r => includes _ _) table) as [r|] eqn:H2.
    { destruct (find_first _ _ _ H2) as [pre [post [Ht [Hr _]]]]. exfalso.
      destruct (Hall r ltac:(rewrite Ht; apply in_or_app; right; left; reflexivity))
        as [_ [Hc _]].
      cbv beta in Hr. rewrite Hc in Hr. discriminate. }
    apply fuzzyMatch_None. intros x Hx. apply (Hall x Hx).
Qed.

(** C4: the three tiers are tried in order and the first success wins.  A
    record whose name equals the query case-insensitively is returned
    whatever the fuzzy scores of the other records are (the first such
    record in scan order, which is that record when it is the only one).
    The fuzzy loop replaces its running best only by a candidate whose score
    is above the running best and above 0.6, so the record returned by the
    fuzzy tier is the first one that attains the highest score; when no
    record qualifies in any tier the resolution fails and both handlers
    answer NotFound. *)
Theorem resolve_three_tiers (table : list Medicine) (query : string) :
  resolve table query
  = match findFirstEquals table query with
    | Some r => Some r
    | None =>
        match findFirstContains table query with
        | Some r => Some r
        | None => fuzzyMatch table query
        end
    end
  /\ (forall r, In r table -> toLowerCase (name r) = toLowerCase query ->
       exists r0 pre post,
         resolve table query = Some r0
         /\ toLowerCase (name r0) = toLowerCase query
         /\ table = pre ++ r0 :: post
         /\ forall x, In x pre -> toLowerCase (name x) <> toLowerCase query)
  /\ (forall r, In r table -> toLowerCase (name r) = toLowerCase query ->
       (forall x, In x table -> toLowerCase (name x) = toLowerCase query -> x = r) ->
       resolve table query = Some r)
  /\ (forall (best : option Medicine) (bestScore : Q) (medicine : Medicine),
       fuzzyStep (normalizeString query) (best, bestScore) medicine
       = if Qltb bestScore (fuzzyScore query medicine)
            && Qltb threshold (fuzzyScore query medicine)
         then (Some medicine, fuzzyScore query medicine)
         else (best, bestScore))
  /\ (forall m, fuzzyMatch table query = Some m ->
       (threshold < fuzzyScore query m)%Q
       /\ exists pre post,
            table = pre ++ m :: post
            /\ (forall x, In x pre -> (fuzzyScore query x < fuzzyScore query m)%Q)
            /\ (forall x, In x post -> (fuzzyScore query x <= fuzzyScore query m)%Q))
  /\ (fuzzyMatch table query = None
       <-> forall x, In x table -> (fuzzyScore query x <= threshold)%Q)
  /\ (resolve table query = None
       <-> forall x, In x table ->
             toLowerCase (name x) <> toLowerCase query
             /\ includes (toLowerCase (name x)) (toLowerCase query) = false
             /\ (fuzzyScore query x <= threshold)%Q)
  /\ (isEmpty query = false -> resolve table query = None ->
       forall other,
         searchBranded table other (Some query) = NotFound
         /\ searchGeneric other table (Some query) = NotFound).
Proof.
  split; [reflexivity|].
  split; [apply resolve_exact|].
  split.
  { intros r Hin Heq Huniq.
    destruct (resolve_exact table query r Hin Heq) as [r0 [pre [post [Hr [H0 [Ht _]]]]]].
    rewrite Hr. f_equal. apply Huniq; [|exact H0].
    rewrite Ht. apply in_or_app. right. left. reflexivity. }
  split; [intros best bestScore medicine; apply fuzzyStep_rule|].
  split; [apply fuzzyMatch_Some|].
  split; [apply fuzzyMatch_None|].
  split; [apply resolve_None|].
  intros Hq Hr other. unfold searchBranded, searchGeneric.
  rewrite Hq, Hr. split; reflexivity.
Qed.

(** The exact match is returned although the record scanned first has an
    equal fuzzy score. *)
Lemma resolve_three_tiers_witness :
  fuzzyScore "crocin tab" (named "CROCIN TABLET") = 1%Q
  /\ resolve [named "CROCIN TABLET"; named "Crocin Tab"] "crocin tab"
     = Some (named "Crocin Tab").
Proof.
  split; [reflexivity|].
  destruct (resolve_three_tiers [named "CROCIN TABLET"; named "Crocin Tab"] "crocin tab")
    as [_ [_ [Huniq _]]].
  apply Huniq.
  - right. left. reflexivity.
  - reflexivity.
  - intros x [<-|[<-|[]]] H; [discriminate H|reflexivity].
Defined.

End MatchResolver.

(* ====================================================================== *)
(** ** The cross-reference engine *)
(* ====================================================================== *)

Section CrossReference.

(** The second definition of the [salt] key replaces the first one: the
    [where] object that reaches the store only asks for a non-null salt. *)
Lemma saltWhere_lookup (source : Medicine) :
  saltWhere source !! "salt" = Some (FNot None).
Proof.
  unfold saltWhere, objectLiteral. cbn [foldl fst snd].
  apply lookup_insert_eq.
Qed.

Lemma whereHolds_saltWhere (source r : Medicine) :
  whereHolds (saltWhere source) r = match salt r with Some _ => true | None => false end.
Proof.
  unfold whereHolds. rewrite saltWhere_lookup. destruct (salt r); reflexivity.
Qed.

Lemma In_insertByPtr (r x : Medicine) (l : list Medicine) :
  In x (insertByPtr r l) <-> x = r \/ In x l.
Proof.
  induction l as [|h t IH]; cbn [insertByPtr].
  - cbn. intuition congruence.
  - destruct (ptrLe (ptr r) (ptr h)); cbn [In]; [intuition congruence|].
    rewrite IH. intuition congruence.
Qed.

Lemma In_orderByPtr (x : Medicine) (l : list Medicine) :
  In x (orderByPtr l) <-> In x l.
Proof.
  induction l as [|h t IH]; [reflexivity|].
  unfold orderByPtr in *. cbn [foldr In]. rewrite In_insertByPtr, IH.
  intuition congruence.
Qed.

Lemma crossReference_members (source : Medicine) (other : list Medicine) (r : Medicine) :
  In r (crossReference source other) <-> In r other /\ salt r <> None.
Proof.
  unfold crossReference, findMany.
  rewrite In_orderByPtr, List.filter_In, whereHolds_saltWhere.
  destruct (salt r); intuition congruence.
Qed.

(** C1 is what the comment of the handlers announces, but not what they
    fetch: the salt of the resolved record does not reach the query, so
    every record of the other table that has a salt is returned, whatever
    the salt of the source, a null one included. *)
Theorem crossReference_ignores_source_salt :
  (forall source other r,
      In r (crossReference source other) <-> In r other /\ salt r <> None)
  /\ salt crocin = Some "PARACETAMOL"
  /\ salt brufen = Some "IBUPROFEN"
  /\ crossReference crocin [brufen] = [brufen]
  /\ salt (named "X") = None
  /\ crossReference (named "X") [brufen] = [brufen]
  /\ searchBranded [crocin] [brufen] (Some "crocin")
     = Found crocin [(brufen, Some "60.00%")].
Proof.
  split; [exact crossReference_members|].
  repeat split; vm_compute; reflexivity.
Qed.

End CrossReference.

(* ====================================================================== *)
(** ** Savings *)
(* ====================================================================== *)

Section Savings.

Lemma truthy_false (x : float) :
  JsNumber.truthy x = false <-> is_zero x = true \/ is_nan x = true.
Proof.
  unfold JsNumber.truthy. rewrite negb_false_iff, orb_true_iff. reflexivity.
Qed.

Lemma SFcompare_refl_finite (s : bool) (m : positive) (e : Z) :
  SFcompare (S754_finite s m e) (S754_finite s m e) = Some Eq.
Proof.
  cbn [SFcompare]. rewrite Z.compare_refl.
  change (Pos.compare_cont Eq m m) with (Pos.compare m m).
  rewrite Pos.compare_refl. destruct s; reflexivity.
Qed.

(** A negative number is neither a zero nor [NaN]. *)
Lemma negative_truthy (x : float) :
  (x <? 0)%float = true -> JsNumber.truthy x = true.
Proof.
  intros H. unfold JsNumber.truthy, is_zero, is_nan.
  rewrite FloatAxioms.ltb_spec in H. rewrite !FloatAxioms.eqb_spec.
  change (Prim2SF 0%float) with (S754_zero false) in H.
  change (Prim2SF zero) with (S754_zero false).
  unfold SFltb in H. unfold SFeqb.
  destruct (Prim2SF x) as [sz| [|] | |[|] m e]; try discriminate H.
  - reflexivity.
  - rewrite SFcompare_refl_finite. reflexivity.
Qed.

(** The rounding of [toFixed] picks a nearest multiple of [1 / scale]. *)
Lemma nearestScaled_nearest (N D scale : Z) :
  (0 < D)%Z ->
  (2 * Z.abs (scale * N - JsNumber.nearestScaled N D scale * D) <= D)%Z.
Proof.
  intros HD. unfold JsNumber.nearestScaled.
  pose proof (Z.div_mod (2 * N * scale + D) (2 * D) ltac:(lia)) as Hdm.
  pose proof (Z.mod_pos_bound (2 * N * scale + D) (2 * D) ltac:(lia)) as Hb.
  set (q := ((2 * N * scale + D) / (2 * D))%Z) in *.
  set (r := ((2 * N * scale + D) mod (2 * D))%Z) in *.
  nia.
Qed.

Lemma savings_null (b g : option float) :
  savings b g = None
  <-> match b with Some x => JsNumber.truthy x = false | None => True end
      \/ match g with Some y => JsNumber.truthy y = false | None => True end.
Proof.
  unfold savings. destruct b as [x|], g as [y|]; try tauto.
  destruct (JsNumber.truthy x), (JsNumber.truthy y); cbn [andb];
    intuition congruence.
Qed.

(** C2, as stated, fails on a negative source price: the guard tests
    truthiness, and a negative number is truthy. *)
Lemma savings_negative_source_not_null :
  (-100 <? 0)%float = true
  /\ savings (Some (-100)%float) (Some 60%float) <> None.
Proof. split; [reflexivity|]. vm_compute. discriminate. Qed.

(** C2, amended: savings is null exactly when one of the two prices is null,
    zero or [NaN]; otherwise, a negative source price included, it is
    [(sourcePtr - resultPtr) / sourcePtr * 100] written by [toFixed(2)],
    that is rounded to a nearest hundredth, followed by '%'. *)
Theorem savings_spec :
  (forall b g : option float,
      savings b g = None
      <-> match b with Some x => JsNumber.truthy x = false | None => True end
          \/ match g with Some y => JsNumber.truthy y = false | None => True end)
  /\ (forall x : float,
        JsNumber.truthy x = false <-> is_zero x = true \/ is_nan x = true)
  /\ (forall x y : float,
        JsNumber.truthy x = true -> JsNumber.truthy y = true ->
        savings (Some x) (Some y)
        = Some (JsNumber.toFixed ((x - y) / x * 100)%float 2 +:+ "%"))
  /\ (forall x y : float,
        (x <? 0)%float = true -> JsNumber.truthy y = true ->
        savings (Some x) (Some y)
        = Some (JsNumber.toFixed ((x - y) / x * 100)%float 2 +:+ "%"))
  /\ (forall (v : float) (N D : Z),
        JsNumber.magnitude v = Some (N, D) -> (N < 10 ^ 21 * D)%Z ->
        JsNumber.toFixed v 2
        = (if JsNumber.isNegative v then "-" else "")
          +:+ JsNumber.fixedDigits (JsNumber.nearestScaled N D 100) 2)
  /\ (forall N D : Z, (0 < D)%Z ->
        (2 * Z.abs (100 * N - JsNumber.nearestScaled N D 100 * D) <= D)%Z)
  /\ JsNumber.fixedDigits 4000 2 = "40.00"
  /\ JsNumber.fixedDigits 5 2 = "0.05"
  /\ savings (Some 100%float) (Some 60%float) = Some "40.00%"
  /\ savings (Some 100%float) None = None
  /\ savings None (Some 60%float) = None
  /\ savings (Some 0%float) (Some 60%float) = None
  /\ savings (Some 100%float) (Some 0%float) = None
  /\ savings (Some (-100)%float) (Some 60%float) = Some "160.00%".
Proof.
  split; [exact savings_null|].
  split; [exact truthy_false|].
  split.
  { intros x y Hx Hy. unfold savings. rewrite Hx, Hy. reflexivity. }
  split.
  { intros x y Hx Hy. unfold savings. rewrite (negative_truthy x Hx), Hy. reflexivity. }
  split.
  { intros v N D Hm Hlt. unfold JsNumber.toFixed. rewrite Hm.
    destruct (Z.leb_spec (10 ^ 21 * D) N) as [Hge|_]; [lia|reflexivity]. }
  split; [intros N D; apply nearestScaled_nearest|].
  repeat split; vm_compute; reflexivity.
Qed.

Lemma savings_spec_witness :
  savings (Some 30%float) (Some 10%float) = Some "66.67%"
  /\ savings (Some (-30)%float) (Some 10%float) = Some "133.33%".
Proof.
  destruct savings_spec as [_ [_ [Hpos [Hneg _]]]]. split.
  - apply (Hpos 30%float 10%float); reflexivity.
  - apply (Hneg (-30)%float 10%float); reflexivity.
Defined.

End Savings.

(* ====================================================================== *)
(** ** The catalog ingestor *)
(* ====================================================================== *)

Section Ingestor.

Lemma parseFloatString_nonNumeric (s : string) :
  nonNumericText s = true -> JsNumber.parseFloatString s = nan.
Proof.
  unfold nonNumericText, JsNumber.parseFloatString.
  destruct (trimStart s) as [|c t]; [reflexivity|].
  rewrite negb_true_iff, !orb_false_iff.
  intros [[[[Hd Hplus] Hminus] Hdot] HI].
  unfold JsNumber.splitSign. rewrite Hminus, Hplus.
  cbn [String.prefix]. destruct (ascii_dec "I" c) as [<-|_]; [discriminate HI|].
  cbn [takeWhileChars dropWhileChars]. rewrite Hd.
  unfold JsNumber.afterDot. rewrite Hdot. reflexivity.
Qed.

Lemma parseIntString_nonNumeric (s : string) :
  nonNumericText s = true -> JsNumber.parseIntString s = nan.
Proof.
  unfold nonNumericText, JsNumber.parseIntString.
  destruct (trimStart s) as [|c t]; [reflexivity|].
  rewrite negb_true_iff, !orb_false_iff.
  intros [[[[Hd Hplus] Hminus] Hdot] HI].
  unfold JsNumber.splitSign. rewrite Hminus, Hplus.
  cbn [String.prefix]. destruct (ascii_dec "0" c) as [<-|_]; [discriminate Hd|].
  cbn [orb takeWhileChars]. rewrite Hd. reflexivity.
Qed.

Lemma findUnique_upsert (table : list Medicine) (key : string)
    (update : Medicine -> Medicine) (create : Medicine) :
  name create = key -> (forall old, name (update old) = name old) ->
  findUnique (upsert table key update create) key
  = Some match findUnique table key with
         | Some old => update old
         | None => create
         end.
Proof.
  intros Hc Hu. unfold findUnique.
  induction table as [|r t IH]; cbn [upsert List.find].
  - rewrite Hc, String.eqb_refl. reflexivity.
  - destruct (String.eqb (name r) key) eqn:Hr; cbn [List.find].
    + rewrite Hu, Hr. reflexivity.
    + rewrite Hr. exact IH.
Qed.

(** A row that has a usable name is always written. *)
Lemma uploadRow_writes (table : list Medicine) (stats : Stats)
    (row : gmap string JsValue) (key : string) :
  optionalTrim (getProp row "PRODUCT NAME") = Normal (Some key) ->
  isEmpty key = false ->
  exists table' stats' r,
    uploadRow table stats row = Normal (table', stats')
    /\ findUnique table' key = Some r
    /\ ptr r = floatField (getProp row "PTR")
    /\ mrp r = floatField (getProp row "MRP")
    /\ shipperSize r = intField (getProp row "SHIPPER SIZE").
Proof.
  intros Hname Hkey. unfold uploadRow. rewrite Hname, Hkey.
  eexists _, _, _. split; [reflexivity|].
  rewrite findUnique_upsert; [|reflexivity|reflexivity].
  split; [reflexivity|].
  destruct (findUnique table key); repeat split; reflexivity.
Qed.

(** C3, as stated, fails on a cell that holds non-numeric text: the field
    written to the store is [NaN], not null. *)
Lemma upload_text_price_not_null :
  exists r response,
    upload (Some (Normal [brufenRow])) [] = ([r], response)
    /\ ptr r <> None /\ mrp r <> None /\ shipperSize r <> None.
Proof.
  eexists _, _. split; [vm_compute; reflexivity|].
  cbn. repeat split; discriminate.
Qed.

(** C3, amended: [ptr], [mrp] and [shipperSize] are null when the cell is
    absent or empty; on a cell that holds other text they are [parseFloat]
    ([parseInt] for [shipperSize]) of the text, which is [NaN], not null,
    when the text does not start like a number; deriving the fields never
    throws, and a row that has a usable name is written with the fields so
    derived. *)
Theorem numeric_fields_spec :
  floatField VUndefined = None /\ intField VUndefined = None
  /\ floatField (VString "") = None /\ intField (VString "") = None
  /\ floatField (VNumber 0%float) = None /\ intField (VNumber 0%float) = None
  /\ (forall s : string, isEmpty s = false ->
        floatField (VString s) = Some (JsNumber.parseFloatString s)
        /\ intField (VString s) = Some (JsNumber.parseIntString s))
  /\ (forall s : string, isEmpty s = false -> nonNumericText s = true ->
        floatField (VString s) = Some nan /\ intField (VString s) = Some nan)
  /\ (forall (table : list Medicine) (stats : Stats) (row : gmap string JsValue)
             (key : string),
        optionalTrim (getProp row "PRODUCT NAME") = Normal (Some key) ->
        isEmpty key = false ->
        exists table' stats' r,
          uploadRow table stats row = Normal (table', stats')
          /\ findUnique table' key = Some r
          /\ ptr r = floatField (getProp row "PTR")
          /\ mrp r = floatField (getProp row "MRP")
          /\ shipperSize r = intField (getProp row "SHIPPER SIZE"))
  /\ upload (Some (Normal [brufenRow; crocinRow])) []
     = ([ {| name := "BRUFEN"; salt := Some "IBUPROFEN";
             contents := Some "IBUPROFEN 400MG"; type := Some OTHER;
             packing := None; ptr := Some nan; mrp := Some nan;
             shipperSize := Some nan |};
          crocin ],
        UploadDone 2 0 2).
Proof.
  repeat split; try reflexivity.
  - destruct s; [discriminate|reflexivity].
  - destruct s; [discriminate|reflexivity].
  - unfold floatField. cbn [toBoolean]. rewrite H. cbn [negb].
    unfold parseFloat. cbn [ToString].
    rewrite (parseFloatString_nonNumeric s H0). reflexivity.
  - unfold intField. cbn [toBoolean]. rewrite H. cbn [negb].
    unfold parseInt. cbn [ToString].
    rewrite (parseIntString_nonNumeric s H0). reflexivity.
  - apply uploadRow_writes.
Qed.

Lemma numeric_fields_spec_witness :
  floatField (VString "abc") = Some nan
  /\ intField (VString "abc") = Some nan
  /\ exists table' stats' r,
       uploadRow [] {| created := 0; updated := 0 |} brufenRow = Normal (table', stats')
       /\ findUnique table' "BRUFEN" = Some r
       /\ ptr r = floatField (getProp brufenRow "PTR")
       /\ mrp r = floatField (getProp brufenRow "MRP")
       /\ shipperSize r = intField (getProp brufenRow "SHIPPER SIZE").
Proof.
  destruct numeric_fields_spec as [_ [_ [_ [_ [_ [_ [_ [Hnan [Hrow _]]]]]]]]].
  split; [apply (Hnan "abc"); reflexivity|].
  split; [apply (Hnan "abc"); reflexivity|].
  apply (Hrow [] {| created := 0; updated := 0 |} brufenRow "BRUFEN"); reflexivity.
Defined.

(** C8: a row that has a usable name, ingested twice into an empty table,
    is created by the first call and updated by the second, and the record
    stored by the second call, its derived fields [salt], [contents] and
    [type] included, is the one stored by the first; the derived fields are
    functions of the name and contents cells of the row alone. *)
Theorem upload_twice (row : gmap string JsValue) (key : string) :
  optionalTrim (getProp row "PRODUCT NAME") = Normal (Some key) ->
  isEmpty key = false ->
  upload (Some (Normal [row])) [] = ([createData key row], UploadDone 1 0 1)
  /\ upload (Some (Normal [row])) [createData key row]
     = ([createData key row], UploadDone 0 1 1)
  /\ (forall branded,
        let once := {| brandedMedicine := branded;
                       genericMedicine := [createData key row] |} in
        uploadGeneric (Some (Normal [row]))
          {| brandedMedicine := branded; genericMedicine := [] |}
        = (once, UploadDone 1 0 1)
        /\ uploadGeneric (Some (Normal [row])) once = (once, UploadDone 0 1 1))
  /\ (forall generic,
        let once := {| brandedMedicine := [createData key row];
                       genericMedicine := generic |} in
        uploadBranded (Some (Normal [row]))
          {| brandedMedicine := []; genericMedicine := generic |}
        = (once, UploadDone 1 0 1)
        /\ uploadBranded (Some (Normal [row])) once = (once, UploadDone 0 1 1))
  /\ upload (Some (Normal [row; row])) [] = ([createData key row], UploadDone 1 1 2)
  /\ salt (createData key row) = extractSalt (getProp row "CONTENTS")
  /\ contents (createData key row) = cleanContents (getProp row "CONTENTS")
  /\ type (createData key row) = detectType (Some key).
Proof.
  intros Hname Hkey.
  assert (Hupd : updateData key row (createData key row) = createData key row)
    by reflexivity.
  unfold uploadGeneric, uploadBranded, upload, uploadRows, uploadRow.
  cbn [brandedMedicine genericMedicine]. rewrite Hname, Hkey.
  cbn [findUnique List.find upsert name createData created updated].
  rewrite String.eqb_refl, Hupd.
  repeat split; reflexivity.
Qed.

Lemma upload_twice_witness :
  upload (Some (Normal [crocinRow])) [] = ([crocin], UploadDone 1 0 1)
  /\ upload (Some (Normal [crocinRow])) [crocin] = ([crocin], UploadDone 0 1 1).
Proof.
  destruct (upload_twice crocinRow "CROCIN TAB") as [H1 [H2 _]];
    [reflexivity|reflexivity|].
  split; [exact H1|exact H2].
Defined.

End Ingestor.

(* ====================================================================== *)
(** ** Case mapping and trimming *)
(* ====================================================================== *)

Section CaseAndTrim.

Ltac all_chars c := destruct c as [[] [] [] [] [] [] [] []]; reflexivity.

Lemma upperChar_idem (c : ascii) : upperChar (upperChar c) = upperChar c.
Proof. all_chars c. Qed.

Lemma upperChar_lowerChar (c : ascii) : upperChar (lowerChar c) = upperChar c.
Proof. all_chars c. Qed.

Lemma lowerChar_upperChar (c : ascii) : lowerChar (upperChar c) = lowerChar c.
Proof. all_chars c. Qed.

Lemma lowerChar_idem (c : ascii) : lowerChar (lowerChar c) = lowerChar c.
Proof. all_chars c. Qed.

Lemma isDigit_upperChar (c : ascii) : isDigit (upperChar c) = isDigit c.
Proof. all_chars c. Qed.

Lemma isWhiteSpace_upperChar (c : ascii) : isWhiteSpace (upperChar c) = isWhiteSpace c.
Proof. all_chars c. Qed.

Lemma isWhiteSpace_lowerChar (c : ascii) : isWhiteSpace (lowerChar c) = isWhiteSpace c.
Proof. all_chars c. Qed.

Lemma mapChars_mapChars (f g : ascii -> ascii) (s : string) :
  mapChars f (mapChars g s) = mapChars (fun c => f (g c)) s.
Proof. induction s as [|c s IH]; [reflexivity|]. cbn [mapChars]. rewrite IH. reflexivity. Qed.

Lemma mapChars_ext (f g : ascii -> ascii) (s : string) :
  (forall c, f c = g c) -> mapChars f s = mapChars g s.
Proof.
  intros H. induction s as [|c s IH]; [reflexivity|].
  cbn [mapChars]. rewrite H, IH. reflexivity.
Qed.

Lemma mapChars_append (f : ascii -> ascii) (s t : string) :
  mapChars f (s +:+ t) = mapChars f s +:+ mapChars f t.
Proof.
  induction s as [|c s IH]; [reflexivity|].
  rewrite append_cons. cbn [mapChars]. rewrite IH, append_cons. reflexivity.
Qed.

Lemma isEmpty_mapChars (f : ascii -> ascii) (s : string) :
  isEmpty (mapChars f s) = isEmpty s.
Proof. destruct s; reflexivity. Qed.

Lemma length_mapChars (f : ascii -> ascii) (s : string) :
  String.length (mapChars f s) = String.length s.
Proof. induction s as [|c s IH]; [reflexivity|]. cbn. rewrite IH. reflexivity. Qed.

Lemma toUpperCase_idem (s : string) : toUpperCase (toUpperCase s) = toUpperCase s.
Proof.
  unfold toUpperCase. rewrite mapChars_mapChars. apply mapChars_ext, upperChar_idem.
Qed.

Lemma toLowerCase_idem (s : string) : toLowerCase (toLowerCase s) = toLowerCase s.
Proof.
  unfold toLowerCase. rewrite mapChars_mapChars. apply mapChars_ext, lowerChar_idem.
Qed.

Lemma toUpperCase_toLowerCase (s : string) : toUpperCase (toLowerCase s) = toUpperCase s.
Proof.
  unfold toUpperCase, toLowerCase. rewrite mapChars_mapChars.
  apply mapChars_ext, upperChar_lowerChar.
Qed.

Lemma toLowerCase_toUpperCase (s : string) : toLowerCase (toUpperCase s) = toLowerCase s.
Proof.
  unfold toUpperCase, toLowerCase. rewrite mapChars_mapChars.
  apply mapChars_ext, lowerChar_upperChar.
Qed.

(** Equal lower-cased texts have equal upper-cased texts. *)
Lemma toLowerCase_eq_toUpperCase (a b : string) :
  toLowerCase a = toLowerCase b -> toUpperCase a = toUpperCase b.
Proof.
  intros H. rewrite <- (toUpperCase_toLowerCase a), H. apply toUpperCase_toLowerCase.
Qed.

Lemma trimStart_mapChars (f : ascii -> ascii) (s : string) :
  (forall c, isWhiteSpace (f c) = isWhiteSpace c) ->
  trimStart (mapChars f s) = mapChars f (trimStart s).
Proof.
  intros H. induction s as [|c s IH]; [reflexivity|].
  cbn [mapChars trimStart]. rewrite H.
  destruct (isWhiteSpace c); [exact IH|reflexivity].
Qed.

Lemma trimEnd_mapChars (f : ascii -> ascii) (s : string) :
  (forall c, isWhiteSpace (f c) = isWhiteSpace c) ->
  trimEnd (mapChars f s) = mapChars f (trimEnd s).
Proof.
  intros H. induction s as [|c s IH]; [reflexivity|].
  cbn [mapChars]. rewrite !trimEnd_cons, IH, isEmpty_mapChars, H.
  destruct (isEmpty (trimEnd s)); [destruct (isWhiteSpace c)|]; reflexivity.
Qed.

Lemma trim_mapChars (f : ascii -> ascii) (s : string) :
  (forall c, isWhiteSpace (f c) = isWhiteSpace c) ->
  trim (mapChars f s) = mapChars f (trim s).
Proof.
  intros H. unfold trim. rewrite trimStart_mapChars, trimEnd_mapChars by exact H.
  reflexivity.
Qed.

Lemma trimStart_idem (s : string) : trimStart (trimStart s) = trimStart s.
Proof.
  induction s as [|c s IH]; [reflexivity|].
  cbn [trimStart]. destruct (isWhiteSpace c) eqn:Hw; [exact IH|].
  cbn [trimStart]. rewrite Hw. reflexivity.
Qed.

Lemma trimEnd_idem (s : string) : trimEnd (trimEnd s) = trimEnd s.
Proof.
  induction s as [|c s IH]; [reflexivity|].
  rewrite trimEnd_cons.
  destruct (trimEnd s) as [|d t] eqn:Ht; cbn [isEmpty].
  - destruct (isWhiteSpace c) eqn:Hw; [reflexivity|].
    cbn [trimEnd]. rewrite Hw. reflexivity.
  - rewrite trimEnd_cons, IH. reflexivity.
Qed.

Lemma trim_idem (s : string) : trim (trim s) = trim s.
Proof.
  unfold trim.
  rewrite (trimEnd_trimStart s), trimStart_idem, <- (trimEnd_trimStart s), trimEnd_idem.
  reflexivity.
Qed.

(** A trimmed text does not start with white space. *)
Lemma trimStart_trim (s : string) : trimStart (trim s) = trim s.
Proof. unfold trim. rewrite trimEnd_trimStart. apply trimStart_idem. Qed.

Lemma testDigit_mapChars_upper (s : string) : testDigit (toUpperCase s) = testDigit s.
Proof.
  induction s as [|c s IH]; [reflexivity|].
  cbn [toUpperCase mapChars testDigit]. fold (toUpperCase s).
  rewrite isDigit_upperChar, IH. reflexivity.
Qed.

Lemma testDigit_trimStart (s : string) : testDigit s = false -> testDigit (trimStart s) = false.
Proof.
  induction s as [|c s IH]; [reflexivity|].
  cbn [testDigit trimStart]. intros H. apply orb_false_iff in H as [Hc Hs].
  destruct (isWhiteSpace c); [apply IH; exact Hs|].
  cbn [testDigit]. rewrite Hc, Hs. reflexivity.
Qed.

Lemma testDigit_trimEnd (s : string) : testDigit s = false -> testDigit (trimEnd s) = false.
Proof.
  induction s as [|c s IH]; [reflexivity|].
  cbn [testDigit]. intros H. apply orb_false_iff in H as [Hc Hs].
  rewrite trimEnd_cons. specialize (IH Hs).
  destruct (isEmpty (trimEnd s)); [destruct (isWhiteSpace c)|]; cbn [testDigit];
    rewrite ?Hc, ?IH; reflexivity.
Qed.

Lemma testDigit_trim (s : string) : testDigit s = false -> testDigit (trim s) = false.
Proof. intros H. apply testDigit_trimEnd, testDigit_trimStart, H. Qed.

End CaseAndTrim.

(* ====================================================================== *)
(** ** What the derived fields look like *)
(* ====================================================================== *)

Section DerivedFields.

Lemma testDigit_keptText (s : string) : testDigit (keptText s) = false.
Proof.
  induction s as [|c s IH]; [reflexivity|].
  rewrite keptText_cons. destruct (stopsAt c s) eqn:Hstop; [reflexivity|].
  cbn [testDigit]. rewrite IH, orb_false_r.
  unfold stopsAt in Hstop. destruct (Ascii.eqb c " ") eqn:Hc.
  - apply Ascii.eqb_eq in Hc. subst c. reflexivity.
  - apply orb_false_iff in Hstop as [Hd _]. exact Hd.
Qed.

Lemma keptText_prefix (s : string) : exists post, s = keptText s +:+ post.
Proof.
  induction s as [|c s [post IH]]; [exists ""; reflexivity|].
  rewrite keptText_cons. destruct (stopsAt c s).
  - exists (String c s). reflexivity.
  - exists post. rewrite append_cons, <- IH. reflexivity.
Qed.

Lemma trimEnd_prefix (s : string) : exists post, s = trimEnd s +:+ post.
Proof.
  induction s as [|c s [post IH]]; [exists ""; reflexivity|].
  rewrite trimEnd_cons. destruct (trimEnd s) as [|d t] eqn:Ht; cbn [isEmpty].
  - destruct (isWhiteSpace c).
    + exists (String c s). reflexivity.
    + exists s. reflexivity.
  - exists post. rewrite append_cons, <- IH. reflexivity.
Qed.

Lemma length_trimStart (s : string) : String.length (trimStart s) <= String.length s.
Proof.
  induction s as [|c s IH]; [reflexivity|].
  cbn [trimStart]. destruct (isWhiteSpace c); cbn [String.length]; lia.
Qed.

(** A prefix of a text that starts with no white space starts with none. *)
Lemma trimStart_of_prefix (t p post : string) :
  trimStart t = t -> t = p +:+ post -> trimStart p = p.
Proof.
  intros Ht Hp. destruct p as [|c p]; [reflexivity|].
  rewrite append_cons in Hp. subst t. cbn [trimStart] in *.
  destruct (isWhiteSpace c); [|reflexivity].
  pose proof (length_trimStart (p +:+ post)) as Hlen.
  rewrite Ht in Hlen. cbn [String.length] in Hlen. lia.
Qed.

(** The text that [extractSalt] and [cleanContents] work on, when they do
    not answer null at once. *)
Lemma extractSalt_unfold (v : JsValue) :
  extractSalt v
  = if negb (toBoolean v) || listIncludes ["#N/A"; "N/A"; "NA"; ""] (trim (ToString v))
    then None
    else if isEmpty (toUpperCase (trim (keptText (trim (ToString v))))) then None
         else Some (toUpperCase (trim (keptText (trim (ToString v))))).
Proof.
  unfold extractSalt. destruct (negb (toBoolean v)); [reflexivity|].
  destruct (listIncludes _ _); reflexivity.
Qed.

Lemma cleanContents_unfold (v : JsValue) :
  cleanContents v
  = if negb (toBoolean v) || listIncludes ["#N/A"; "N/A"; "NA"; ""] (trim (ToString v))
    then None
    else Some (trim (ToString v)).
Proof.
  unfold cleanContents. destruct (negb (toBoolean v)); [reflexivity|].
  destruct (listIncludes _ _); reflexivity.
Qed.

(** X1: Every salt is non-empty, upper-case, trimmed and free of digits. *)
Theorem extractSalt_shape (v : JsValue) (s : string) :
  extractSalt v = Some s ->
  isEmpty s = false /\ toUpperCase s = s /\ trim s = s /\ testDigit s = false.
Proof.
  rewrite extractSalt_unfold. destruct (_ || _); [discriminate|].
  destruct (isEmpty _) eqn:He; [discriminate|]. intros [= <-].
  split; [exact He|]. split; [apply toUpperCase_idem|]. split.
  - unfold toUpperCase. rewrite trim_mapChars by apply isWhiteSpace_upperChar.
    rewrite trim_idem. reflexivity.
  - rewrite testDigit_mapChars_upper. apply testDigit_trim, testDigit_keptText.
Qed.

Lemma extractSalt_shape_witness :
  isEmpty "AMOXYCILLIN CLAV" = false
  /\ toUpperCase "AMOXYCILLIN CLAV" = "AMOXYCILLIN CLAV"
  /\ trim "AMOXYCILLIN CLAV" = "AMOXYCILLIN CLAV"
  /\ testDigit "AMOXYCILLIN CLAV" = false.
Proof.
  apply (extractSalt_shape (VString " Amoxycillin Clav 625mg ")). reflexivity.
Defined.

(** X2: The contents kept for a row are trimmed, non-empty and no sentinel; a
    row without contents has no salt, and a salt is always the beginning of
    the upper-cased contents. *)
Theorem cleanContents_extractSalt (v : JsValue) :
  (cleanContents v = None -> extractSalt v = None)
  /\ (forall c, cleanContents v = Some c ->
        trim c = c /\ isEmpty c = false
        /\ listIncludes ["#N/A"; "N/A"; "NA"] c = false)
  /\ (forall s, extractSalt v = Some s ->
        exists c, cleanContents v = Some c
                  /\ String.prefix s (toUpperCase c) = true).
Proof.
  rewrite extractSalt_unfold, cleanContents_unfold.
  destruct (negb (toBoolean v)
            || listIncludes ["#N/A"; "N/A"; "NA"; ""] (trim (ToString v))) eqn:Hg.
  - split; [reflexivity|]. split; intros ?; discriminate.
  - split; [discriminate|]. apply orb_false_iff in Hg as [_ Hs]. split.
    + intros c [= <-]. split; [apply trim_idem|].
      cbn [listIncludes existsb] in Hs |- *.
      destruct (String.eqb (trim (ToString v)) "#N/A"); [discriminate|].
      destruct (String.eqb (trim (ToString v)) "N/A"); [discriminate|].
      destruct (String.eqb (trim (ToString v)) "NA"); [discriminate|].
      destruct (trim (ToString v)); [discriminate|]. split; reflexivity.
    + intros s Hsalt. exists (trim (ToString v)). split; [reflexivity|].
      destruct (isEmpty _); [discriminate|]. injection Hsalt as <-.
      destruct (keptText_prefix (trim (ToString v))) as [post1 H1].
      assert (H2 : trim (keptText (trim (ToString v)))
                   = trimEnd (keptText (trim (ToString v)))).
      { unfold trim at 1.
        rewrite (trimStart_of_prefix _ _ _ (trimStart_trim (ToString v)) H1).
        reflexivity. }
      destruct (trimEnd_prefix (keptText (trim (ToString v)))) as [post2 H3].
      apply prefix_spec. exists (toUpperCase (post2 +:+ post1)).
      rewrite H2. unfold toUpperCase. rewrite <- mapChars_append, <- append_assoc, <- H3, <- H1.
      reflexivity.
Qed.

Lemma cleanContents_extractSalt_witness :
  exists c, cleanContents (VString " Paracetamol 500mg ") = Some c
            /\ String.prefix "PARACETAMOL" (toUpperCase c) = true.
Proof.
  destruct (cleanContents_extractSalt (VString " Paracetamol 500mg ")) as [_ [_ H]].
  apply (H "PARACETAMOL"). reflexivity.
Defined.

(** X3: The category does not depend on the case of the name. *)
Theorem detectType_case_insensitive (n : string) :
  detectType (Some (toUpperCase n)) = detectType (Some n)
  /\ detectType (Some (toLowerCase n)) = detectType (Some n).
Proof.
  unfold detectType.
  rewrite toUpperCase_idem, toUpperCase_toLowerCase.
  unfold toUpperCase at 1, toLowerCase at 1. rewrite !isEmpty_mapChars.
  split; reflexivity.
Qed.

Ltac absorb u long short :=
  let Hl := fresh "Hl" in
  destruct (includes u long) eqn:Hl;
  [ rewrite (includes_trans u long short Hl eq_refl) | ].

(** X4: The keywords TABLET, CAPSULE, INJECTION, SYRUP, SUSPENSION, DROPS and
    ROTACAP never decide: each holds a keyword that is tested no later, so
    the classifier is the first-match search over the shorter table. *)
Theorem detectType_deciding_keywords (productName : option string) :
  detectType productName = classifyWith decidingKeywords productName.
Proof.
  destruct productName as [n|]; [|reflexivity].
  unfold detectType, classifyWith.
  destruct (isEmpty n); [reflexivity|].
  cbn [List.find decidingKeywords existsb snd fst].
  generalize (toUpperCase n). intros u.
  absorb u "TABLET" "TAB"; [reflexivity|].
  absorb u "CAPSULE" "CAP".
  { destruct (includes u "TAB"); reflexivity. }
  absorb u "ROTACAP" "CAP".
  { destruct (includes u "TAB"); reflexivity. }
  absorb u "INJECTION" "INJ".
  { destruct (includes u "TAB"), (includes u "CAP"); reflexivity. }
  absorb u "SYRUP" "SYR".
  { destruct (includes u "TAB"), (includes u "CAP"), (includes u "INJ"); reflexivity. }
  absorb u "SUSPENSION" "SUSP".
  { destruct (includes u "TAB"), (includes u "CAP"), (includes u "INJ"),
      (includes u "SYR"); reflexivity. }
  absorb u "DROPS" "DROP".
  { destruct (includes u "TAB"), (includes u "CAP"), (includes u "INJ"),
      (includes u "SYR"), (includes u "SUSP"), (includes u "CREAM"),
      (includes u "OINTMENT"), (includes u "GEL"); reflexivity. }
  repeat match goal with
         | |- context [includes u ?k] => destruct (includes u k); cbn [orb]; try reflexivity
         end.
Qed.

End DerivedFields.

(* ====================================================================== *)
(** ** More on the distance and the score *)
(* ====================================================================== *)

Section DistanceFacts.

Lemma cost_same (s : string) (i : nat) : cost s s i i = 0.
Proof. unfold cost. rewrite bool_decide_eq_true_2; reflexivity. Qed.

Lemma levD_diag (s : string) (i : nat) : levD s s i i = 0.
Proof.
  induction i as [|i IH]; [reflexivity|].
  rewrite levD_S_S, IH, cost_same. unfold min3. lia.
Qed.

Lemma levD_ge_diff (s1 s2 : string) (i j : nat) :
  i - j <= levD s1 s2 i j /\ j - i <= levD s1 s2 i j.
Proof.
  revert j. induction i as [|i IHi]; intros j.
  - rewrite levD_0_l. lia.
  - induction j as [|j IHj].
    + rewrite levD_0_r. lia.
    + rewrite levD_S_S. pose proof (IHi (S j)). pose proof (IHi j).
      unfold min3. lia.
Qed.

Lemma levD_zero (s1 s2 : string) (i j : nat) :
  levD s1 s2 i j = 0 ->
  i = j /\ forall k, k < i -> String.get k s1 = String.get k s2.
Proof.
  revert j. induction i as [|i IH]; intros j.
  - rewrite levD_0_l. intros ->. split; [reflexivity|]. intros k Hk. lia.
  - destruct j as [|j]; [rewrite levD_0_r; discriminate|].
    rewrite levD_S_S. unfold min3. intros H.
    assert (H0 : levD s1 s2 i j = 0) by lia.
    assert (Hc : cost s1 s2 (S i) (S j) = 0) by lia.
    destruct (IH j H0) as [-> Hk]. split; [reflexivity|].
    intros k Hlt. destruct (decide (k = j)) as [->|Hne]; [|apply Hk; lia].
    unfold cost in Hc. case_bool_decide as Hget; [|discriminate].
    cbn in Hget. rewrite !Nat.sub_0_r in Hget. exact Hget.
Qed.

Lemma get_beyond (s : string) (k : nat) : String.length s <= k -> String.get k s = None.
Proof.
  revert k. induction s as [|c s IH]; intros k Hk; [reflexivity|].
  destruct k as [|k]; cbn in *; [lia|]. apply IH. lia.
Qed.

Lemma levenshteinDistance_zero (s1 s2 : string) :
  levenshteinDistance s1 s2 = 0 -> s1 = s2.
Proof.
  rewrite levenshteinDistance_levD. intros H.
  destruct (levD_zero _ _ _ _ H) as [Hlen Hget].
  apply String.get_correct. intros k.
  destruct (Nat.lt_ge_cases k (String.length s1)) as [Hk|Hk]; [apply Hget; exact Hk|].
  rewrite !get_beyond; [reflexivity|lia|lia].
Qed.

(** X5: The distance is zero exactly between equal strings. *)
Theorem levenshteinDistance_zero_iff (s1 s2 : string) :
  levenshteinDistance s1 s2 = 0 <-> s1 = s2.
Proof.
  split; [apply levenshteinDistance_zero|].
  intros ->. rewrite levenshteinDistance_levD. apply levD_diag.
Qed.

(** X6: The distance is at least the difference of the lengths and at most the
    longer length; against the empty string it is the length. *)
Theorem levenshteinDistance_bounds (s1 s2 : string) :
  String.length s1 - String.length s2 <= levenshteinDistance s1 s2
  /\ String.length s2 - String.length s1 <= levenshteinDistance s1 s2
  /\ levenshteinDistance s1 s2 <= Nat.max (String.length s1) (String.length s2)
  /\ levenshteinDistance s1 "" = String.length s1
  /\ levenshteinDistance "" s2 = String.length s2.
Proof.
  rewrite !levenshteinDistance_levD.
  destruct (levD_ge_diff s1 s2 (String.length s1) (String.length s2)) as [H1 H2].
  split; [exact H1|]. split; [exact H2|]. split; [apply levD_le_max|].
  split; [apply levD_0_r|apply levD_0_l].
Qed.

Lemma trim_lower_normal (a : string) :
  trim (toLowerCase (trim (toLowerCase a))) = trim (toLowerCase a).
Proof.
  unfold toLowerCase at 1. rewrite trim_mapChars by apply isWhiteSpace_lowerChar.
  rewrite trim_idem. fold (toLowerCase (trim (toLowerCase a))).
  unfold toLowerCase at 1. rewrite <- trim_mapChars by apply isWhiteSpace_lowerChar.
  fold (toLowerCase (toLowerCase a)). rewrite toLowerCase_idem. reflexivity.
Qed.

(** X7: The score only sees its arguments lower-cased and trimmed: case and
    surrounding white space do not change it. *)
Theorem similarityScore_normal_form (a b : string) :
  similarityScore a b = similarityScore (trim (toLowerCase a)) (trim (toLowerCase b))
  /\ similarityScore (toUpperCase a) b = similarityScore a b
  /\ similarityScore (trim a) b = similarityScore a b.
Proof.
  split; [|split].
  - unfold similarityScore. rewrite !trim_lower_normal. reflexivity.
  - unfold similarityScore. rewrite toLowerCase_toUpperCase. reflexivity.
  - unfold similarityScore.
    assert (H : trim (toLowerCase (trim a)) = trim (toLowerCase a)).
    { unfold toLowerCase. rewrite <- trim_mapChars by apply isWhiteSpace_lowerChar.
      apply trim_idem. }
    rewrite H. reflexivity.
Qed.

Lemma Q_of_nat_pos (n : nat) : 0 < n -> (0 < inject_Z (Z.of_nat n))%Q.
Proof. intros H. change 0%Q with (inject_Z 0). rewrite <- Zlt_Qlt. lia. Qed.

(** X8: The score is 1 exactly when the lower-cased, trimmed inputs are equal,
    and 0 when exactly one of them is empty. *)
Theorem similarityScore_extremes (a b : string) :
  ((similarityScore a b == 1)%Q <-> trim (toLowerCase a) = trim (toLowerCase b))
  /\ (trim (toLowerCase a) = "" -> trim (toLowerCase b) <> "" ->
      (similarityScore a b == 0)%Q).
Proof.
  rewrite similarityScore_value.
  set (s1 := trim (toLowerCase a)). set (s2 := trim (toLowerCase b)).
  destruct (String.eqb_spec s1 s2) as [He|Hne].
  - split; [split; [intros _; exact He|reflexivity]|]. intros H1 H2. congruence.
  - assert (Hd : 0 < levenshteinDistance s1 s2).
    { destruct (levenshteinDistance s1 s2) eqn:Hz; [|lia].
      exfalso. apply Hne, levenshteinDistance_zero, Hz. }
    assert (Hl : 0 < Nat.max (String.length s1) (String.length s2)).
    { pose proof (levenshteinDistance_le_max s1 s2). lia. }
    pose proof (Q_of_nat_pos _ Hl) as HL.
    split.
    + split; [|intros H; contradiction]. intros H. exfalso.
      assert (Hx : (0 < inject_Z (Z.of_nat (levenshteinDistance s1 s2))
                        / inject_Z (Z.of_nat (Nat.max (String.length s1)
                                                      (String.length s2))))%Q).
      { apply Qlt_shift_div_l; [exact HL|]. rewrite Qmult_0_l.
        apply Q_of_nat_pos. exact Hd. }
      lra.
    + intros H1 H2. rewrite H1 in *.
      rewrite levenshteinDistance_levD, levD_0_l. cbn [String.length Nat.max].
      assert (Hn : ~ (inject_Z (Z.of_nat (String.length s2)) == 0)%Q).
      { intros E. cbn [String.length Nat.max] in HL. rewrite E in HL.
        apply (Qlt_irrefl 0). exact HL. }
      field. exact Hn.
Qed.

Lemma similarityScore_extremes_witness : (similarityScore "  " "Crocin" == 0)%Q.
Proof.
  destruct (similarityScore_extremes "  " "Crocin") as [_ H].
  apply H; [reflexivity|discriminate].
Defined.

End DistanceFacts.

(* ====================================================================== *)
(** ** The normalizer and the tiers *)
(* ====================================================================== *)

Section NormalizerFacts.

Lemma allChars_append (p : ascii -> bool) (s t : string) :
  allChars p (s +:+ t) = allChars p s && allChars p t.
Proof.
  induction s as [|c s IH]; [reflexivity|].
  rewrite append_cons. cbn [allChars]. rewrite IH, andb_assoc. reflexivity.
Qed.

Lemma allChars_collapseSpaces (p : ascii -> bool) (inRun : bool) (s : string) :
  p " "%char = true -> allChars p s = true -> allChars p (collapseSpaces inRun s) = true.
Proof.
  intros Hsp. revert inRun. induction s as [|c s IH]; intros inRun H; [reflexivity|].
  cbn [allChars] in H. apply andb_true_iff in H as [Hc Hs].
  cbn [collapseSpaces]. destruct (isWhiteSpace c); [destruct inRun|];
    cbn [allChars]; rewrite ?Hsp, ?Hc; cbn [andb]; apply IH; exact Hs.
Qed.

Lemma allChars_removeParens (p : ascii -> bool) (s : string) :
  allChars p s = true -> allChars p (removeParens s) = true.
Proof.
  induction s as [|c s IH]; intros H; [reflexivity|].
  cbn [allChars] in H. apply andb_true_iff in H as [Hc Hs].
  cbn [removeParens]. destruct (_ || _); [apply IH; exact Hs|].
  cbn [allChars]. rewrite Hc. apply IH. exact Hs.
Qed.

Lemma allChars_replaceWords (p : ascii -> bool) (alts : list string) (repl : string)
    (prevWord : bool) (skip : nat) (s : string) :
  allChars p repl = true -> allChars p s = true ->
  allChars p (replaceWords alts repl prevWord skip s) = true.
Proof.
  intros Hr. revert prevWord skip. induction s as [|c s IH]; intros prevWord skip H;
    [reflexivity|].
  cbn [allChars] in H. apply andb_true_iff in H as [Hc Hs].
  cbn [replaceWords]. destruct skip as [|k]; [|apply IH; exact Hs].
  destruct (if prevWord then None else List.find _ alts) as [w|].
  - rewrite allChars_append, Hr. apply IH. exact Hs.
  - cbn [allChars]. rewrite Hc. apply IH. exact Hs.
Qed.

Lemma allChars_trimStart (p : ascii -> bool) (s : string) :
  allChars p s = true -> allChars p (trimStart s) = true.
Proof.
  induction s as [|c s IH]; intros H; [reflexivity|].
  cbn [trimStart]. destruct (isWhiteSpace c); [|exact H].
  cbn [allChars] in H. apply andb_true_iff in H as [_ Hs]. apply IH. exact Hs.
Qed.

Lemma allChars_trimEnd (p : ascii -> bool) (s : string) :
  allChars p s = true -> allChars p (trimEnd s) = true.
Proof.
  induction s as [|c s IH]; intros H; [reflexivity|].
  cbn [allChars] in H. apply andb_true_iff in H as [Hc Hs]. specialize (IH Hs).
  rewrite trimEnd_cons.
  destruct (isEmpty (trimEnd s)); [destruct (isWhiteSpace c)|];
    cbn [allChars]; rewrite ?Hc, ?IH; reflexivity.
Qed.

Lemma allChars_trim (p : ascii -> bool) (s : string) :
  allChars p s = true -> allChars p (trim s) = true.
Proof. intros H. apply allChars_trimEnd, allChars_trimStart, H. Qed.

(** The stages of [normalizeString] after the upper-casing keep a class of
    characters that holds the space and the letters of the replacements. *)
Lemma allChars_stages (p : ascii -> bool) (s : string) :
  p " "%char = true -> allChars p "TABCPINJSYR" = true ->
  allChars p (removeParens (collapseSpaces false s)) = true ->
  allChars p
    (trim (replaceWords ["SYRUP"; "SYR"] "SYR" false 0
            (replaceWords ["INJECTION"; "INJ"] "INJ" false 0
              (replaceWords ["CAPSULE"; "CAP"] "CAP" false 0
                (replaceWords ["TABLET"; "TAB"] "TAB" false 0
                  (removeParens (collapseSpaces false s))))))) = true.
Proof.
  intros Hsp Hl H.
  cbn [allChars] in Hl. rewrite !andb_true_iff in Hl.
  destruct Hl as (HT & HA & HB & HC & HP & HI & HN & HJ & HS & HY & HR & _).
  apply allChars_trim.
  repeat (apply allChars_replaceWords;
          [cbn [allChars]; rewrite ?HT, ?HA, ?HB, ?HC, ?HP, ?HI, ?HN, ?HJ, ?HS, ?HY, ?HR;
           reflexivity|]).
  exact H.
Qed.

Lemma allChars_upperFixed_toUpperCase (s : string) :
  allChars upperFixed (toUpperCase s) = true.
Proof.
  induction s as [|c s IH]; [reflexivity|].
  cbn [toUpperCase mapChars allChars]. fold (toUpperCase s). rewrite IH, andb_true_r.
  unfold upperFixed. rewrite upperChar_idem. apply Ascii.eqb_refl.
Qed.

Lemma allChars_notParen_removeParens (s : string) :
  allChars notParen (removeParens s) = true.
Proof.
  induction s as [|c s IH]; [reflexivity|].
  cbn [removeParens]. destruct (_ || _) eqn:Hc; [exact IH|].
  cbn [allChars]. unfold notParen at 1. rewrite Hc, IH. reflexivity.
Qed.

Lemma allChars_spaceIfWhite_collapseSpaces (inRun : bool) (s : string) :
  allChars spaceIfWhite (collapseSpaces inRun s) = true.
Proof.
  revert inRun. induction s as [|c s IH]; intros inRun; [reflexivity|].
  cbn [collapseSpaces]. destruct (isWhiteSpace c) eqn:Hw; [destruct inRun|];
    cbn [allChars]; rewrite ?IH; try reflexivity.
  unfold spaceIfWhite. rewrite Hw. reflexivity.
Qed.

Lemma allChars_upperFixed_fixed (s : string) :
  allChars upperFixed s = true -> toUpperCase s = s.
Proof.
  induction s as [|c s IH]; [reflexivity|].
  cbn [allChars]. intros H. apply andb_true_iff in H as [Hc Hs].
  cbn [toUpperCase mapChars]. fold (toUpperCase s).
  apply Ascii.eqb_eq in Hc. rewrite Hc, (IH Hs). reflexivity.
Qed.

Lemma normalizeString_unfold (str : string) :
  normalizeString str
  = if isEmpty str then ""
    else trim (replaceWords ["SYRUP"; "SYR"] "SYR" false 0
                (replaceWords ["INJECTION"; "INJ"] "INJ" false 0
                  (replaceWords ["CAPSULE"; "CAP"] "CAP" false 0
                    (replaceWords ["TABLET"; "TAB"] "TAB" false 0
                      (removeParens (collapseSpaces false (toUpperCase str))))))).
Proof. reflexivity. Qed.

(** X9: A normalized name is trimmed and upper-case, holds no parenthesis, and
    its only white space is the space. *)
Theorem normalizeString_shape (str : string) :
  trim (normalizeString str) = normalizeString str
  /\ toUpperCase (normalizeString str) = normalizeString str
  /\ allChars notParen (normalizeString str) = true
  /\ allChars spaceIfWhite (normalizeString str) = true.
Proof.
  rewrite normalizeString_unfold. destruct (isEmpty str); [repeat split; reflexivity|].
  split; [apply trim_idem|]. split; [|split].
  - apply allChars_upperFixed_fixed, allChars_stages; try reflexivity.
    apply allChars_removeParens, allChars_collapseSpaces; [reflexivity|].
    apply allChars_upperFixed_toUpperCase.
  - apply allChars_stages; try reflexivity. apply allChars_notParen_removeParens.
  - apply allChars_stages; try reflexivity.
    apply allChars_removeParens, allChars_spaceIfWhite_collapseSpaces.
Qed.

Lemma normalizeString_upper (a b : string) :
  toUpperCase a = toUpperCase b -> normalizeString a = normalizeString b.
Proof.
  intros H. rewrite !normalizeString_unfold, H.
  assert (He : isEmpty a = isEmpty b).
  { unfold toUpperCase in H. rewrite <- (isEmpty_mapChars upperChar a), H.
    apply isEmpty_mapChars. }
  rewrite He. reflexivity.
Qed.

(** X10: A record that the exact tier accepts has the highest fuzzy score, 1. *)
Theorem exact_match_scores_one (query : string) (r : Medicine) :
  toLowerCase (name r) = toLowerCase query -> fuzzyScore query r = 1%Q.
Proof.
  intros H. unfold fuzzyScore.
  rewrite (normalizeString_upper (name r) query (toLowerCase_eq_toUpperCase _ _ H)).
  unfold similarityScore. rewrite String.eqb_refl. reflexivity.
Qed.

Lemma exact_match_scores_one_witness :
  fuzzyScore "crocin (tablet)" (named "CROCIN (Tablet)") = 1%Q.
Proof. apply exact_match_scores_one. reflexivity. Defined.

Lemma resolve_case (table : list Medicine) (a b : string) :
  toLowerCase a = toLowerCase b -> resolve table a = resolve table b.
Proof.
  intros H. unfold resolve, findFirstEquals, findFirstContains, fuzzyMatch.
  rewrite H, (normalizeString_upper a b (toLowerCase_eq_toUpperCase _ _ H)).
  reflexivity.
Qed.

(** X11: The case of the query does not change what the search handlers answer. *)
Theorem search_case_insensitive (branded generic : list Medicine) (query : string) :
  resolve branded (toUpperCase query) = resolve branded query
  /\ resolve branded (toLowerCase query) = resolve branded query
  /\ searchBranded branded generic (Some (toUpperCase query))
     = searchBranded branded generic (Some query)
  /\ searchGeneric branded generic (Some (toLowerCase query))
     = searchGeneric branded generic (Some query).
Proof.
  assert (Hu : forall t, resolve t (toUpperCase query) = resolve t query).
  { intros t. apply resolve_case, toLowerCase_toUpperCase. }
  assert (Hl : forall t, resolve t (toLowerCase query) = resolve t query).
  { intros t. apply resolve_case, toLowerCase_idem. }
  split; [apply Hu|]. split; [apply Hl|].
  unfold searchBranded, searchGeneric. rewrite Hu, Hl.
  unfold toUpperCase, toLowerCase. rewrite !isEmpty_mapChars.
  split; reflexivity.
Qed.

Lemma append_empty_r (s : string) : s +:+ "" = s.
Proof.
  induction s as [|c s IH]; [reflexivity|]. rewrite append_cons, IH. reflexivity.
Qed.

Lemma includes_refl (s : string) : includes s s = true.
Proof.
  apply includes_spec. exists "", "". rewrite append_nil_l, append_empty_r. reflexivity.
Qed.

End NormalizerFacts.

(* ====================================================================== *)
(** ** What the resolver returns *)
(* ====================================================================== *)

Section ResolverFacts.

(** X12: The resolver only returns records of the table, each for the reason of
    its tier. *)
Theorem resolve_sound (table : list Medicine) (query : string) (r : Medicine) :
  resolve table query = Some r ->
  In r table
  /\ (toLowerCase (name r) = toLowerCase query
      \/ includes (toLowerCase (name r)) (toLowerCase query) = true
      \/ (threshold < fuzzyScore query r)%Q).
Proof.
  unfold resolve, findFirstEquals, findFirstContains.
  destruct (List.find _ table) as [r1|] eqn:H1.
  { intros [= <-]. destruct (find_first _ _ _ H1) as [pre [post [-> [Hr _]]]].
    split; [apply in_or_app; right; left; reflexivity|].
    left. apply String.eqb_eq. exact Hr. }
  destruct (List.find (fun r => includes _ _) table) as [r2|] eqn:H2.
  { intros [= <-]. destruct (find_first _ _ _ H2) as [pre [post [-> [Hr _]]]].
    split; [apply in_or_app; right; left; reflexivity|].
    right. left. exact Hr. }
  intros H3. destruct (fuzzyMatch_Some _ _ _ H3) as [Hthr [pre [post [-> _]]]].
  split; [apply in_or_app; right; left; reflexivity|].
  right. right. exact Hthr.
Qed.

Lemma resolve_sound_witness :
  In (named "Crocin Advance") [named "Brufen"; named "Crocin Advance"].
Proof.
  apply (resolve_sound [named "Brufen"; named "Crocin Advance"] "crocin").
  reflexivity.
Defined.

(** X13: When the name of some record contains the query, the resolver returns
    a record whose name contains it: a substring hit is never passed over
    for a fuzzy one. *)
Theorem resolve_prefers_substring (table : list Medicine) (query : string)
    (x : Medicine) :
  In x table ->
  includes (toLowerCase (name x)) (toLowerCase query) = true ->
  exists r, resolve table query = Some r
            /\ includes (toLowerCase (name r)) (toLowerCase query) = true.
Proof.
  intros Hin Hx. unfold resolve, findFirstEquals, findFirstContains.
  destruct (List.find _ table) as [r1|] eqn:H1.
  { exists r1. split; [reflexivity|].
    destruct (find_first _ _ _ H1) as [_ [_ [_ [Hr _]]]].
    apply String.eqb_eq in Hr. rewrite Hr. apply includes_refl. }
  destruct (find_is_Some (fun r => includes (toLowerCase (name r)) (toLowerCase query))
              table x Hin Hx) as [r2 H2].
  rewrite H2. exists r2. split; [reflexivity|].
  destruct (find_first _ _ _ H2) as [_ [_ [_ [Hr _]]]]. exact Hr.
Qed.

Lemma resolve_prefers_substring_witness :
  exists r, resolve [named "CROCIM"; named "Crocin Advance"] "crocin" = Some r
            /\ includes (toLowerCase (name r)) (toLowerCase "crocin") = true.
Proof.
  apply (resolve_prefers_substring _ _ (named "Crocin Advance"));
    [right; left; reflexivity|reflexivity].
Defined.

End ResolverFacts.

(* ====================================================================== *)
(** ** Invariants of the upload loop *)
(* ====================================================================== *)

Section UploadFacts.

Lemma uploadRow_usable (table : list Medicine) (stats : Stats)
    (row : gmap string JsValue) (key : string) :
  usableKey row = Some key ->
  uploadRow table stats row
  = Normal (upsert table key (updateData key row) (createData key row),
            match findUnique table key with
            | Some _ => {| created := created stats; updated := S (updated stats) |}
            | None => {| created := S (created stats); updated := updated stats |}
            end).
Proof.
  unfold usableKey, uploadRow.
  destruct (optionalTrim _) as [[k|]|]; try discriminate.
  destruct (isEmpty k); [discriminate|]. intros [= ->]. reflexivity.
Qed.

Lemma uploadRow_skipped (table : list Medicine) (stats : Stats)
    (row : gmap string JsValue) :
  usableKey row = None -> nameThrows row = false ->
  uploadRow table stats row = Normal (table, stats).
Proof.
  unfold usableKey, nameThrows, uploadRow.
  destruct (optionalTrim _) as [[k|]|]; try discriminate; [|reflexivity].
  destruct (isEmpty k); [reflexivity|discriminate].
Qed.

Lemma uploadRow_throws (table : list Medicine) (stats : Stats)
    (row : gmap string JsValue) :
  nameThrows row = true -> uploadRow table stats row = Throw.
Proof.
  unfold nameThrows, uploadRow.
  destruct (optionalTrim _) as [[k|]|]; try discriminate. reflexivity.
Qed.

Lemma nameThrows_usableKey (row : gmap string JsValue) :
  nameThrows row = true -> usableKey row = None.
Proof.
  unfold nameThrows, usableKey. destruct (optionalTrim _); [discriminate|reflexivity].
Qed.

Lemma findUnique_name (table : list Medicine) (key : string) (r : Medicine) :
  findUnique table key = Some r -> name r = key /\ In r table.
Proof.
  unfold findUnique. intros H.
  destruct (find_first _ _ _ H) as [pre [post [-> [Hr _]]]].
  split; [apply String.eqb_eq; exact Hr|]. apply in_or_app. right. left. reflexivity.
Qed.

Lemma findUnique_None (table : list Medicine) (key : string) :
  findUnique table key = None <-> ~ In key (map name table).
Proof.
  unfold findUnique. induction table as [|r t IH]; cbn [List.find map In].
  - tauto.
  - destruct (String.eqb_spec (name r) key) as [He|Hne].
    + split; [discriminate|]. intros H. exfalso. apply H. left. exact He.
    + rewrite IH. tauto.
Qed.

Lemma findUnique_upsert_other (table : list Medicine) (key key' : string)
    (update : Medicine -> Medicine) (create : Medicine) :
  name create = key -> (forall old, name (update old) = name old) -> key' <> key ->
  findUnique (upsert table key update create) key' = findUnique table key'.
Proof.
  intros Hc Hu Hne. unfold findUnique.
  induction table as [|r t IH]; cbn [upsert List.find].
  - rewrite Hc. destruct (String.eqb_spec key key'); [congruence|reflexivity].
  - destruct (String.eqb_spec (name r) key) as [He|Hk]; cbn [List.find].
    + rewrite Hu. destruct (String.eqb_spec (name r) key'); [congruence|reflexivity].
    + rewrite IH. reflexivity.
Qed.

Lemma names_upsert (table : list Medicine) (key : string)
    (update : Medicine -> Medicine) (create : Medicine) :
  name create = key -> (forall old, name (update old) = name old) ->
  map name (upsert table key update create)
  = match findUnique table key with
    | Some _ => map name table
    | None => map name table ++ [key]
    end.
Proof.
  intros Hc Hu. unfold findUnique.
  induction table as [|r t IH]; cbn [upsert List.find map].
  - rewrite Hc. reflexivity.
  - destruct (String.eqb (name r) key); cbn [map].
    + rewrite Hu. reflexivity.
    + rewrite IH. destruct (List.find _ t); reflexivity.
Qed.

Lemma uploadRows_app (rows1 rows2 : list (gmap string JsValue))
    (table : list Medicine) (stats : Stats) :
  uploadRows (rows1 ++ rows2) table stats
  = match uploadRows rows1 table stats with
    | (table1, Some stats1) => uploadRows rows2 table1 stats1
    | (table1, None) => (table1, None)
    end.
Proof.
  revert table stats. induction rows1 as [|row rows1 IH]; intros table stats;
    [reflexivity|].
  cbn [app uploadRows]. destruct (uploadRow table stats row) as [[t s]|];
    [apply IH|reflexivity].
Qed.

(** What one turn of the loop does, by the kind of the row. *)
Lemma uploadRow_cases (table : list Medicine) (stats : Stats)
    (row : gmap string JsValue) :
  (exists key, usableKey row = Some key
               /\ uploadRow table stats row
                  = Normal (upsert table key (updateData key row) (createData key row),
                            match findUnique table key with
                            | Some _ => {| created := created stats;
                                           updated := S (updated stats) |}
                            | None => {| created := S (created stats);
                                         updated := updated stats |}
                            end))
  \/ (usableKey row = None /\ uploadRow table stats row = Normal (table, stats))
  \/ (usableKey row = None /\ uploadRow table stats row = Throw).
Proof.
  destruct (usableKey row) as [key|] eqn:Hk.
  - left. exists key. split; [reflexivity|]. apply uploadRow_usable, Hk.
  - right. destruct (nameThrows row) eqn:Ht.
    + right. split; [reflexivity|]. apply uploadRow_throws, Ht.
    + left. split; [reflexivity|]. apply uploadRow_skipped; assumption.
Qed.

(** X14: The names of a table stay pairwise distinct through an upload, whether
    it completes or fails. *)
Theorem uploadRows_keeps_names_distinct (rows : list (gmap string JsValue))
    (table : list Medicine) (stats : Stats) :
  NoDup (map name table) -> NoDup (map name (uploadRows rows table stats).1).
Proof.
  revert table stats. induction rows as [|row rows IH]; intros table stats Hnd;
    [exact Hnd|].
  cbn [uploadRows].
  destruct (uploadRow_cases table stats row) as [[key [Hk ->]]|[[_ ->]|[_ ->]]];
    [|apply IH; exact Hnd|exact Hnd].
  apply IH. rewrite names_upsert by reflexivity.
  destruct (findUnique table key) eqn:Hf; [exact Hnd|].
  apply NoDup_app. split; [exact Hnd|]. split; [|apply NoDup_singleton].
  intros x Hx ->%list_elem_of_singleton.
  apply findUnique_None in Hf. apply Hf. apply list_elem_of_In. exact Hx.
Qed.

Lemma uploadRows_keeps_names_distinct_witness :
  NoDup (map name (uploadRows [crocinRow; brufenRow; crocinRow] []
                     {| created := 0; updated := 0 |}).1).
Proof. apply uploadRows_keeps_names_distinct. apply NoDup_nil_2. Defined.

Lemma uploadRows_count_lemma (rows : list (gmap string JsValue))
    (table table' : list Medicine) (stats stats' : Stats) :
  uploadRows rows table stats = (table', Some stats') ->
  length table' + created stats = length table + created stats'
  /\ created stats' + updated stats'
     = created stats + updated stats + length (omap usableKey rows).
Proof.
  revert table stats. induction rows as [|row rows IH]; intros table stats.
  - cbn. intros [= <- <-]. lia.
  - cbn [uploadRows].
    change (omap usableKey (row :: rows))
      with (match usableKey row with
            | Some key => key :: omap usableKey rows
            | None => omap usableKey rows
            end).
    destruct (uploadRow_cases table stats row) as [[key [Hk ->]]|[[Hk ->]|[_ ->]]];
      [| |discriminate]; rewrite Hk.
    + intros H. apply IH in H.
      assert (Hlen : length (map name (upsert table key (updateData key row)
                                        (createData key row)))
                     = match findUnique table key with
                       | Some _ => length table
                       | None => S (length table)
                       end).
      { rewrite names_upsert by reflexivity.
        destruct (findUnique table key); rewrite ?length_app, length_map; cbn; lia. }
      rewrite length_map in Hlen.
      destruct (findUnique table key); cbn [created updated length] in *; lia.
    + intros H. apply IH in H. exact H.
Qed.

(** X15: An upload that completes counts every row that has a usable name once:
    [created] grows by the number of rows added to the table, and
    [created + updated] by the number of rows with a usable name. *)
Theorem uploadRows_counts (rows : list (gmap string JsValue))
    (table table' : list Medicine) (stats stats' : Stats) :
  uploadRows rows table stats = (table', Some stats') ->
  length table' + created stats = length table + created stats'
  /\ created stats' + updated stats'
     = created stats + updated stats + length (omap usableKey rows).
Proof.
  intros H. split.
  - apply (uploadRows_count_lemma rows table table' stats stats' H).
  - apply (uploadRows_count_lemma rows table table' stats stats' H).
Qed.

Lemma uploadRows_counts_witness :
  length (uploadRows [crocinRow; ∅; crocinRow; brufenRow] []
            {| created := 0; updated := 0 |}).1 + 0 = 0 + 2
  /\ 2 + 1 = 0 + 0 + length (omap usableKey [crocinRow; ∅; crocinRow; brufenRow]).
Proof.
  apply (uploadRows_counts [crocinRow; ∅; crocinRow; brufenRow] [] _
           {| created := 0; updated := 0 |} {| created := 2; updated := 1 |}).
  vm_compute. reflexivity.
Defined.

Lemma uploadRows_lookup_other (rows : list (gmap string JsValue))
    (table : list Medicine) (stats : Stats) (key : string) :
  (forall r, In r rows -> usableKey r <> Some key) ->
  findUnique (uploadRows rows table stats).1 key = findUnique table key.
Proof.
  revert table stats. induction rows as [|row rows IH]; intros table stats Hk;
    [reflexivity|].
  cbn [uploadRows].
  destruct (uploadRow_cases table stats row) as [[k [Hu ->]]|[[_ ->]|[_ ->]]];
    [| |reflexivity].
  - rewrite IH by (intros r Hr; apply Hk; right; exact Hr).
    apply findUnique_upsert_other; [reflexivity|reflexivity|].
    intros ->. apply (Hk row); [left; reflexivity|exact Hu].
  - apply IH. intros r Hr. apply Hk. right. exact Hr.
Qed.

Lemma findUnique_upsert_same (table : list Medicine) (row : gmap string JsValue)
    (key : string) :
  findUnique (upsert table key (updateData key row) (createData key row)) key
  = Some (createData key row).
Proof.
  rewrite findUnique_upsert by reflexivity.
  destruct (findUnique table key) as [old|] eqn:Hf; [|reflexivity].
  destruct (findUnique_name _ _ _ Hf) as [Hn _].
  unfold updateData, createData. rewrite Hn. reflexivity.
Qed.

(** X16: Last write wins: after an upload that completes, the record under a
    name is the one derived from the last row of the batch that has this
    name, and a record whose name no row of the batch has is as before. *)
Theorem uploadRows_last_write_wins (rows1 rows2 : list (gmap string JsValue))
    (row : gmap string JsValue) (table table' : list Medicine)
    (stats stats' : Stats) (key : string) :
  uploadRows (rows1 ++ row :: rows2) table stats = (table', Some stats') ->
  usableKey row = Some key ->
  (forall r, In r rows2 -> usableKey r <> Some key) ->
  findUnique table' key = Some (createData key row)
  /\ forall other,
       (forall r, In r (rows1 ++ row :: rows2) -> usableKey r <> Some other) ->
       findUnique table' other = findUnique table other.
Proof.
  intros Hrun Hk Hlast. split.
  - rewrite uploadRows_app in Hrun.
    destruct (uploadRows rows1 table stats) as [t1 [s1|]]; [|discriminate].
    cbn [uploadRows] in Hrun. rewrite (uploadRow_usable t1 s1 row key Hk) in Hrun.
    pose proof (uploadRows_lookup_other rows2
                  (upsert t1 key (updateData key row) (createData key row))
                  match findUnique t1 key with
                  | Some _ => {| created := created s1; updated := S (updated s1) |}
                  | None => {| created := S (created s1); updated := updated s1 |}
                  end key Hlast) as Hother.
    rewrite Hrun in Hother. cbn [fst] in Hother.
    rewrite Hother. apply findUnique_upsert_same.
  - intros other Hnone.
    pose proof (uploadRows_lookup_other (rows1 ++ row :: rows2) table stats other Hnone)
      as Hother.
    rewrite Hrun in Hother. exact Hother.
Qed.

Lemma uploadRows_last_write_wins_witness :
  findUnique (uploadRows ([brufenRow; <["PTR" := VNumber 99%float]> crocinRow]
                          ++ crocinRow :: [brufenRow]) []
                {| created := 0; updated := 0 |}).1 "CROCIN TAB"
  = Some (createData "CROCIN TAB" crocinRow).
Proof.
  eapply (uploadRows_last_write_wins
            [brufenRow; <["PTR" := VNumber 99%float]> crocinRow] [brufenRow]
            crocinRow [] _ {| created := 0; updated := 0 |} _ "CROCIN TAB").
  - vm_compute. reflexivity.
  - reflexivity.
  - intros r [<-|[]]. vm_compute. discriminate.
Defined.

End UploadFacts.

(* ====================================================================== *)
(** ** The reader of the sheet and the upload *)
(* ====================================================================== *)

Section SheetFacts.

Lemma findIndex_None {A : Type} (p : A -> bool) (l : list A) :
  (forall x, In x l -> p x = false) -> findIndex p l = None.
Proof.
  induction l as [|x l IH]; intros H; [reflexivity|].
  cbn [findIndex]. rewrite (H x) by (left; reflexivity).
  rewrite IH; [reflexivity|]. intros y Hy. apply H. right. exact Hy.
Qed.

Lemma readExcelSmart_skip (row : list JsValue) (rows : list (list JsValue)) :
  isHeaderRow row = false -> readExcelSmart (row :: rows) = readExcelSmart rows.
Proof.
  intros H. unfold readExcelSmart. cbn [findIndex]. rewrite H.
  destruct (findIndex isHeaderRow rows) as [i|]; reflexivity.
Qed.

(** X17: Without a row that holds a "PRODUCT NAME" cell (trimmed, in any case)
    the reader throws; the rows above the first such row are ignored. *)
Theorem readExcelSmart_header (above rows : list (list JsValue)) :
  (forall row, In row above -> isHeaderRow row = false) ->
  readExcelSmart above = Throw
  /\ readExcelSmart (above ++ rows) = readExcelSmart rows.
Proof.
  intros H. split.
  - unfold readExcelSmart. rewrite findIndex_None by exact H. reflexivity.
  - induction above as [|row above IH]; [reflexivity|].
    cbn [app]. rewrite readExcelSmart_skip by (apply H; left; reflexivity).
    apply IH. intros r Hr. apply H. right. exact Hr.
Qed.

Lemma readExcelSmart_header_witness :
  readExcelSmart [[VString "Price list"]; [VString ""; VNumber 2026%float]] = Throw
  /\ readExcelSmart ([[VString "Price list"]; [VString ""; VNumber 2026%float]]
                     ++ [[VString "PRODUCT NAME"]; [VString "CROCIN TAB"]])
     = readExcelSmart [[VString "PRODUCT NAME"]; [VString "CROCIN TAB"]].
Proof.
  apply readExcelSmart_header. intros row [<-|[<-|[]]]; reflexivity.
Defined.

Lemma filterRows_kept (parsed kept : list (gmap string JsValue)) :
  filterRows parsed = Normal kept ->
  forall r, In r kept -> hasProductName r = Normal true.
Proof.
  revert kept. induction parsed as [|x parsed IH]; intros kept.
  - intros [= <-] r [].
  - cbn [filterRows]. destruct (hasProductName x) as [keep|] eqn:Hx; [|discriminate].
    destruct (filterRows parsed) as [kept'|]; [|discriminate].
    intros [= <-] r Hr. destruct keep.
    + destruct Hr as [<-|Hr]; [exact Hx|apply (IH kept' eq_refl); exact Hr].
    + apply (IH kept' eq_refl). exact Hr.
Qed.

Lemma hasProductName_usable (r : gmap string JsValue) :
  hasProductName r = Normal true -> exists key, usableKey r = Some key.
Proof.
  unfold hasProductName, usableKey.
  destruct (optionalTrim _) as [[k|]|]; try discriminate.
  destruct (isEmpty k); [discriminate|]. intros _. exists k. reflexivity.
Qed.

Lemma readExcelSmart_kept (rows : list (list JsValue))
    (out : list (gmap string JsValue)) :
  readExcelSmart rows = Normal out ->
  forall r, In r out -> exists key, usableKey r = Some key.
Proof.
  unfold readExcelSmart.
  destruct (findIndex isHeaderRow rows) as [i|]; [|discriminate].
  destruct (headerCells _) as [header|]; [|discriminate].
  intros H r Hr. apply hasProductName_usable. apply (filterRows_kept _ _ H r Hr).
Qed.

Lemma uploadRows_all_usable (rows : list (gmap string JsValue))
    (table : list Medicine) (stats : Stats) :
  (forall r, In r rows -> exists key, usableKey r = Some key) ->
  exists table' stats',
    uploadRows rows table stats = (table', Some stats')
    /\ length (omap usableKey rows) = length rows.
Proof.
  revert table stats. induction rows as [|row rows IH]; intros table stats H.
  - exists table, stats. split; reflexivity.
  - destruct (H row (or_introl eq_refl)) as [key Hk].
    cbn [uploadRows]. rewrite (uploadRow_usable table stats row key Hk).
    destruct (IH (upsert table key (updateData key row) (createData key row))
                 match findUnique table key with
                 | Some _ => {| created := created stats; updated := S (updated stats) |}
                 | None => {| created := S (created stats); updated := updated stats |}
                 end) as [t' [s' [Hrun Hlen]]].
    { intros r Hr. apply H. right. exact Hr. }
    exists t', s'. split; [exact Hrun|].
    change (omap usableKey (row :: rows))
      with (match usableKey row with
            | Some key => key :: omap usableKey rows
            | None => omap usableKey rows
            end).
    rewrite Hk. cbn [length]. rewrite Hlen. reflexivity.
Qed.

(** X18: A sheet that reads is ingested whole: every row the reader returns has
    a usable name, so the upload that follows neither fails nor skips a row,
    and its total is the number of rows read. *)
Theorem upload_of_read_sheet (sheet : list (list JsValue))
    (out : list (gmap string JsValue)) (table : list Medicine) :
  readExcelSmart sheet = Normal out ->
  (forall r, In r out -> exists key, usableKey r = Some key)
  /\ exists table' created updated,
       upload (Some (readExcelSmart sheet)) table
       = (table', UploadDone created updated (length out))
       /\ created + updated = length out
       /\ length table' = length table + created.
Proof.
  intros Hread. pose proof (readExcelSmart_kept sheet out Hread) as Hall.
  split; [exact Hall|].
  destruct (uploadRows_all_usable out table {| created := 0; updated := 0 |} Hall)
    as [t' [s' [Hrun Hlen]]].
  destruct (uploadRows_count_lemma _ _ _ _ _ Hrun) as [H1 H2].
  cbn [created updated] in H1, H2. rewrite Hlen in H2.
  exists t', (created s'), (updated s').
  rewrite Hread. unfold upload. rewrite Hrun, H2.
  split; [reflexivity|]. split; lia.
Qed.

Lemma upload_of_read_sheet_witness :
  exists table' created updated,
    upload (Some (readExcelSmart
                    [[VString "Price list"];
                     [VString "PRODUCT NAME"; VString "PTR"];
                     [VString "CROCIN TAB"; VNumber 30%float];
                     [VString "   "; VNumber 1%float];
                     [VString "BRUFEN"; VString "abc"]])) [crocin]
    = (table', UploadDone created updated 2)
    /\ created + updated = 2 /\ length table' = 1 + created.
Proof.
  apply (upload_of_read_sheet
           [[VString "Price list"];
            [VString "PRODUCT NAME"; VString "PTR"];
            [VString "CROCIN TAB"; VNumber 30%float];
            [VString "   "; VNumber 1%float];
            [VString "BRUFEN"; VString "abc"]]
           (map (rowObject ["PRODUCT NAME"; "PTR"])
                [[VString "CROCIN TAB"; VNumber 30%float];
                 [VString "BRUFEN"; VString "abc"]])
           [crocin]).
  vm_compute. reflexivity.
Defined.

Lemma filterRows_throws (parsed : list (gmap string JsValue))
    (r : gmap string JsValue) :
  In r parsed -> nameThrows r = true -> filterRows parsed = Throw.
Proof.
  intros Hin Hr. induction parsed as [|x parsed IH]; [destruct Hin|].
  cbn [filterRows]. destruct Hin as [->|Hin].
  - unfold hasProductName. unfold nameThrows in Hr.
    destruct (optionalTrim _); [discriminate|reflexivity].
  - rewrite (IH Hin). destruct (hasProductName x); reflexivity.
Qed.

(** X19: A data row whose "PRODUCT NAME" cell is a number or a boolean makes
    the reader throw: the whole upload fails and nothing is written, the
    well-formed rows of the sheet included. *)
Theorem upload_rejects_sheet_with_numeric_name (rows : list (list JsValue)) (i : nat)
    (header : list string) (cells : list JsValue) (table : list Medicine) :
  findIndex isHeaderRow rows = Some i ->
  headerCells (default [] (rows !! i)) = Normal header ->
  In cells (drop (i + 1) rows) ->
  nameThrows (rowObject header cells) = true ->
  readExcelSmart rows = Throw
  /\ upload (Some (readExcelSmart rows)) table = (table, UploadFailed).
Proof.
  intros Hi Hh Hin Hbad.
  assert (H : readExcelSmart rows = Throw).
  { unfold readExcelSmart. rewrite Hi, Hh.
    apply (filterRows_throws _ (rowObject header cells)); [|exact Hbad].
    apply in_map. exact Hin. }
  split; [exact H|]. rewrite H. reflexivity.
Qed.

Lemma upload_rejects_sheet_with_numeric_name_witness :
  upload (Some (readExcelSmart [[VString "PRODUCT NAME"; VString "PTR"];
                                [VString "CROCIN TAB"; VNumber 30%float];
                                [VNumber 5%float; VNumber 2%float]])) [brufen]
  = ([brufen], UploadFailed).
Proof.
  apply (upload_rejects_sheet_with_numeric_name _ 0 ["PRODUCT NAME"; "PTR"]
           [VNumber 5%float; VNumber 2%float] [brufen]).
  - reflexivity.
  - reflexivity.
  - right. left. reflexivity.
  - reflexivity.
Defined.

Lemma fillObject_lookup_other (header : list string) (idx : nat) (row : list JsValue)
    (obj : gmap string JsValue) (key : string) :
  ~ In key header -> fillObject header idx row obj !! key = obj !! key.
Proof.
  revert idx obj. induction header as [|h header IH]; intros idx obj Hk; [reflexivity|].
  cbn [fillObject]. rewrite IH by (intros Hin; apply Hk; right; exact Hin).
  destruct (isEmpty h); [reflexivity|].
  apply lookup_insert_ne. intros ->. apply Hk. left. reflexivity.
Qed.

Lemma filterRows_none (parsed : list (gmap string JsValue)) :
  (forall r, In r parsed -> hasProductName r = Normal false) ->
  filterRows parsed = Normal [].
Proof.
  induction parsed as [|x parsed IH]; intros H; [reflexivity|].
  cbn [filterRows]. rewrite (H x) by (left; reflexivity).
  rewrite IH; [reflexivity|]. intros r Hr. apply H. right. exact Hr.
Qed.

(** X20: The header row is found in any case, but the cells are then read under
    the exact key "PRODUCT NAME": when no header cell is that text, the
    reader returns no row at all, without an error. *)
Theorem readExcelSmart_header_case (rows : list (list JsValue)) (i : nat)
    (header : list string) :
  findIndex isHeaderRow rows = Some i ->
  headerCells (default [] (rows !! i)) = Normal header ->
  ~ In "PRODUCT NAME" header ->
  readExcelSmart rows = Normal [].
Proof.
  intros Hi Hh Hnot. unfold readExcelSmart. rewrite Hi, Hh.
  apply filterRows_none. intros r Hr.
  apply in_map_iff in Hr as [cells [<- _]].
  unfold hasProductName, getProp, rowObject.
  rewrite fillObject_lookup_other by exact Hnot.
  rewrite lookup_empty. reflexivity.
Qed.

Lemma readExcelSmart_header_case_witness :
  readExcelSmart [[VString "Product Name"; VString "PTR"];
                  [VString "CROCIN TAB"; VNumber 30%float]] = Normal [].
Proof.
  apply (readExcelSmart_header_case _ 0 ["Product Name"; "PTR"]);
    [reflexivity|reflexivity|].
  intros [H|[H|[]]]; discriminate H.
Defined.

End SheetFacts.

(* ====================================================================== *)
(** ** The search by active ingredient *)
(* ====================================================================== *)

Section SaltSearchFacts.

Lemma length_insertByPtr (r : Medicine) (l : list Medicine) :
  length (insertByPtr r l) = S (length l).
Proof.
  induction l as [|h t IH]; [reflexivity|].
  cbn [insertByPtr]. destruct (ptrLe _ _); cbn [length]; [reflexivity|].
  rewrite IH. reflexivity.
Qed.

Lemma length_orderByPtr (l : list Medicine) : length (orderByPtr l) = length l.
Proof.
  induction l as [|h t IH]; [reflexivity|].
  unfold orderByPtr in *. cbn [foldr length]. rewrite length_insertByPtr, IH.
  reflexivity.
Qed.

Lemma In_findManySaltContains (table : list Medicine) (q : string) (r : Medicine) :
  In r (findManySaltContains table q) <-> In r table /\ saltContains q r = true.
Proof. unfold findManySaltContains. rewrite In_orderByPtr, List.filter_In. reflexivity. Qed.

Lemma findManySaltContains_empty (table : list Medicine) (q : string) :
  Nat.eqb (length (findManySaltContains table q)) 0 = true
  <-> forall r, In r table -> saltContains q r = false.
Proof.
  rewrite Nat.eqb_eq. split.
  - intros H r Hr. destruct (saltContains q r) eqn:Hs; [|reflexivity].
    assert (Hin : In r (findManySaltContains table q))
      by (apply In_findManySaltContains; split; assumption).
    destruct (findManySaltContains table q); [destruct Hin|discriminate].
  - intros H. destruct (findManySaltContains table q) as [|r l] eqn:Hf; [reflexivity|].
    assert (Hin : In r (findManySaltContains table q)) by (rewrite Hf; left; reflexivity).
    apply In_findManySaltContains in Hin as [Hr Hs]. rewrite (H r Hr) in Hs. discriminate.
Qed.

Lemma In_map_saltHit (q : string) (table : list Medicine) (h : SaltHit) :
  In h (map saltHit (findManySaltContains table q))
  <-> exists r, In r table /\ saltContains q r = true /\ h = saltHit r.
Proof.
  rewrite in_map_iff. split.
  - intros [r [<- Hr]]. apply In_findManySaltContains in Hr as [H1 H2].
    exists r. repeat split; assumption.
  - intros [r [H1 [H2 ->]]]. exists r. split; [reflexivity|].
    apply In_findManySaltContains. split; assumption.
Qed.

(** X21: For a non-empty query the handler answers NotFound exactly when no
    record of either table has a salt that contains the upper-cased,
    trimmed query, case-insensitively; otherwise it returns exactly the
    records that do, each table apart, and their number. *)
Theorem searchSalt_hits (branded generic : list Medicine) (query : string) :
  isEmpty query = false ->
  (searchSalt branded generic (Some query) = SaltNotFound
   <-> forall r, In r branded \/ In r generic ->
                 saltContains (trim (toUpperCase query)) r = false)
  /\ forall key gs bs n,
       searchSalt branded generic (Some query) = SaltFound key gs bs n ->
       key = trim (toUpperCase query)
       /\ n = length gs + length bs
       /\ (forall h, In h gs <-> exists r, In r generic
                                          /\ saltContains key r = true /\ h = saltHit r)
       /\ (forall h, In h bs <-> exists r, In r branded
                                          /\ saltContains key r = true /\ h = saltHit r).
Proof.
  intros Hq. unfold searchSalt. rewrite Hq.
  set (k := trim (toUpperCase query)).
  destruct (Nat.eqb (length (findManySaltContains generic k)) 0) eqn:Hg;
    [destruct (Nat.eqb (length (findManySaltContains branded k)) 0) eqn:Hb|];
    cbn [andb].
  - pose proof (proj1 (findManySaltContains_empty generic k) Hg) as Hg'.
    pose proof (proj1 (findManySaltContains_empty branded k) Hb) as Hb'.
    split; [|intros key gs bs n H; discriminate].
    split; [|reflexivity]. intros _ r [Hr|Hr]; [apply Hb'|apply Hg']; exact Hr.
  - split.
    + split; [discriminate|]. intros H. exfalso.
      assert (Hb' : Nat.eqb (length (findManySaltContains branded k)) 0 = true).
      { apply findManySaltContains_empty. intros r Hr. apply H. left. exact Hr. }
      congruence.
    + intros key gs bs n [= <- <- <- <-]. split; [reflexivity|].
      split; [rewrite !length_map; reflexivity|].
      split; intros h; apply In_map_saltHit.
  - split.
    + split; [discriminate|]. intros H. exfalso.
      assert (Hg' : Nat.eqb (length (findManySaltContains generic k)) 0 = true).
      { apply findManySaltContains_empty. intros r Hr. apply H. right. exact Hr. }
      congruence.
    + intros key gs bs n [= <- <- <- <-]. split; [reflexivity|].
      split; [rewrite !length_map; reflexivity|].
      split; intros h; apply In_map_saltHit.
Qed.

Lemma searchSalt_hits_witness :
  searchSalt [crocin] [brufen] (Some "mol") <> SaltNotFound.
Proof.
  destruct (searchSalt_hits [crocin] [brufen] "mol" eq_refl) as [[H _] _].
  intros E. specialize (H E crocin (or_introl (or_introl eq_refl))).
  discriminate H.
Defined.

Lemma includes_empty (s : string) : includes s "" = true.
Proof. destruct s; reflexivity. Qed.

(** X22: A query of white space alone passes the missing-parameter test and is
    then trimmed to the empty text, which every salt contains: the handler
    lists every record that has a salt. *)
Theorem searchSalt_blank_query (branded generic : list Medicine) (query : string) :
  isEmpty query = false -> trim query = "" ->
  searchSalt branded generic (Some query)
  = let gs := orderByPtr (List.filter hasSalt generic) in
    let bs := orderByPtr (List.filter hasSalt branded) in
    if Nat.eqb (length gs) 0 && Nat.eqb (length bs) 0 then SaltNotFound
    else SaltFound "" (map saltHit gs) (map saltHit bs) (length gs + length bs).
Proof.
  intros Hq Ht. unfold searchSalt. rewrite Hq.
  assert (Hk : trim (toUpperCase query) = "").
  { unfold toUpperCase. rewrite trim_mapChars by apply isWhiteSpace_upperChar.
    rewrite Ht. reflexivity. }
  rewrite Hk.
  assert (Hf : forall table, findManySaltContains table ""
                             = orderByPtr (List.filter hasSalt table)).
  { intros table. unfold findManySaltContains. f_equal. apply List.filter_ext.
    intros r. unfold saltContains, hasSalt.
    destruct (salt r); [apply includes_empty|reflexivity]. }
  rewrite !Hf. reflexivity.
Qed.

Lemma searchSalt_blank_query_witness :
  searchSalt [crocin; named "X"] [brufen] (Some "  ")
  = SaltFound "" [saltHit brufen] [saltHit crocin] 2.
Proof.
  apply (searchSalt_blank_query [crocin; named "X"] [brufen] "  "); reflexivity.
Defined.

End SaltSearchFacts.

(* ====================================================================== *)
(** ** Savings at equal prices *)
(* ====================================================================== *)

Section SavingsFacts.

Lemma truthy_finite (x : float) :
  JsNumber.truthy x = true -> is_infinity x = false ->
  exists s m e, Prim2SF x = S754_finite s m e.
Proof.
  unfold JsNumber.truthy, is_zero, is_nan, is_infinity.
  rewrite !FloatAxioms.eqb_spec, FloatAxioms.abs_spec.
  change (Prim2SF zero) with (S754_zero false).
  change (Prim2SF infinity) with (S754_infinity false).
  destruct (Prim2SF x) as [s| s | |s m e]; cbn; try discriminate.
  intros _ _. exists s, m, e. reflexivity.
Qed.

Lemma zero_percent (v : float) (s : bool) :
  Prim2SF v = S754_zero s -> JsNumber.toFixed v 2 = "0.00".
Proof.
  intros H. unfold JsNumber.toFixed, JsNumber.magnitude, JsNumber.isNegative.
  rewrite FloatAxioms.ltb_spec, H.
  change (Prim2SF 0%float) with (S754_zero false). reflexivity.
Qed.

(** X23: A counterpart at the price of the source saves "0.00%", for every
    price that is finite and not zero. *)
Theorem savings_equal_prices (x : float) :
  JsNumber.truthy x = true -> is_infinity x = false ->
  savings (Some x) (Some x) = Some "0.00%".
Proof.
  intros Ht Hi. destruct (truthy_finite x Ht Hi) as [s [m [e Hx]]].
  unfold savings. rewrite Ht. cbn [andb]. f_equal.
  rewrite (zero_percent ((x - x) / x * 100)%float s); [reflexivity|].
  rewrite FloatAxioms.mul_spec, FloatAxioms.div_spec, FloatAxioms.sub_spec, Hx.
  unfold SF64mul, SF64div, SF64sub. cbn [SFsub].
  rewrite Z.sub_diag. cbn [binary_normalize SFdiv xorb].
  change (Prim2SF 100%float) with (S754_finite false 7036874417766400 (-46)).
  cbn [SFmul]. destruct s; reflexivity.
Qed.

Lemma savings_equal_prices_witness : savings (Some 12.5%float) (Some 12.5%float) = Some "0.00%".
Proof. apply savings_equal_prices; reflexivity. Defined.

End SavingsFacts.

(* ====================================================================== *)
(** ** The first copy of the server against the current one *)
(* ====================================================================== *)

Section LegacyFacts.

(** The salt computed from a string by the body shared by the two copies. *)
Lemma legacy_extractSalt_string (s : string) :
  Legacy.extractSalt (VString s)
  = Normal (if isEmpty s || listIncludes ["#N/A"; "N/A"; "NA"] s then None
            else if isEmpty (toUpperCase (trim (keptText s))) then None
                 else Some (toUpperCase (trim (keptText s)))).
Proof.
  unfold Legacy.extractSalt. cbn [toBoolean]. destruct (isEmpty s); [reflexivity|].
  cbn [negb orb]. destruct (listIncludes _ s); reflexivity.
Qed.

(** X24: The two copies of [extractSalt] agree on every string, except on a
    sentinel with white space around it: the first copy takes it for a
    salt, the current one answers null.  On a number or [true] the first
    copy throws, the current one never does. *)
Theorem extractSalt_copies (s : string) :
  (listIncludes ["#N/A"; "N/A"; "NA"] (trim s) = false
   \/ listIncludes ["#N/A"; "N/A"; "NA"] s = true ->
   Legacy.extractSalt (VString s) = Normal (extractSalt (VString s)))
  /\ (listIncludes ["#N/A"; "N/A"; "NA"] (trim s) = true ->
      listIncludes ["#N/A"; "N/A"; "NA"] s = false ->
      Legacy.extractSalt (VString s) = Normal (Some (trim s))
      /\ extractSalt (VString s) = None)
  /\ (forall x, JsNumber.truthy x = true -> Legacy.extractSalt (VNumber x) = Throw)
  /\ Legacy.extractSalt (VBool true) = Throw.
Proof.
  rewrite legacy_extractSalt_string, extractSalt_unfold. cbn [toBoolean ToString].
  rewrite negb_involutive, (keptText_trim s).
  split; [|split; [|split]].
  - intros [Ht|Hs].
    + destruct (isEmpty s) eqn:He; [reflexivity|]. cbn [orb].
      destruct (listIncludes _ s) eqn:Hs.
      { apply sentinel_cases in Hs as [->|[->| ->]]; discriminate Ht. }
      cbn [listIncludes existsb] in Ht |- *.
      rewrite !orb_false_iff in Ht. destruct Ht as (H1 & H2 & H3 & _).
      rewrite H1, H2, H3. cbn [orb].
      destruct (String.eqb_spec (trim s) "") as [E|_]; [rewrite E|]; reflexivity.
    + apply sentinel_cases in Hs as [->|[->| ->]]; reflexivity.
  - intros Ht Hs. destruct (isEmpty s) eqn:He.
    { destruct s; [discriminate Ht|discriminate He]. }
    rewrite Hs. cbn [orb].
    assert (Hin : listIncludes ["#N/A"; "N/A"; "NA"; ""] (trim s) = true).
    { apply sentinel_cases in Ht as [E|[E|E]]; rewrite E; reflexivity. }
    rewrite Hin. split; [|reflexivity].
    apply sentinel_cases in Ht as [E|[E|E]]; rewrite E; reflexivity.
  - intros x Hx. unfold Legacy.extractSalt. cbn [toBoolean]. rewrite Hx. reflexivity.
  - reflexivity.
Qed.

Lemma extractSalt_copies_witness :
  Legacy.extractSalt (VString " Paracetamol 500mg") = Normal (extractSalt (VString " Paracetamol 500mg"))
  /\ Legacy.extractSalt (VString " N/A ") = Normal (Some "N/A")
  /\ extractSalt (VString " N/A ") = None.
Proof.
  destruct (extractSalt_copies " Paracetamol 500mg") as [H1 _].
  destruct (extractSalt_copies " N/A ") as [_ [H2 _]].
  split; [apply H1; left; reflexivity|].
  apply H2; reflexivity.
Defined.

Lemma upsert_keep (table : list Medicine) (key : string) (create : Medicine) :
  upsert table key (fun old => old) create
  = match findUnique table key with
    | Some _ => table
    | None => table ++ [create]
    end.
Proof.
  unfold findUnique. induction table as [|r t IH]; [reflexivity|].
  cbn [upsert List.find]. destruct (String.eqb (name r) key); [reflexivity|].
  rewrite IH. destruct (List.find _ t); reflexivity.
Qed.

Lemma legacy_uploadRow_appends (table : list Medicine) (row : gmap string JsValue)
    (table' : list Medicine) :
  Legacy.uploadRow table row = Normal table' ->
  exists added, table' = table ++ added
                /\ forall r, In r added -> findUnique table (name r) = None.
Proof.
  unfold Legacy.uploadRow.
  destruct (optionalTrim _) as [[key|]|]; try discriminate.
  - destruct (isEmpty key).
    { intros [= <-]. exists []. rewrite app_nil_r. split; [reflexivity|intros r []]. }
    destruct (Legacy.extractSalt _) as [salt_|]; [|discriminate].
    intros [= <-]. rewrite upsert_keep.
    destruct (findUnique table key) eqn:Hf.
    + exists []. rewrite app_nil_r. split; [reflexivity|intros r []].
    + exists [Legacy.createData key row salt_]. split; [reflexivity|].
      intros r [<-|[]]. exact Hf.
  - intros [= <-]. exists []. rewrite app_nil_r. split; [reflexivity|intros r []].
Qed.

Lemma findUnique_app_l (table added : list Medicine) (key : string) (r : Medicine) :
  findUnique table key = Some r -> findUnique (table ++ added) key = Some r.
Proof.
  unfold findUnique. induction table as [|x t IH]; [discriminate|].
  cbn [app List.find]. destruct (String.eqb (name x) key); [tauto|exact IH].
Qed.

(** X25: The branded upload of the first copy only appends: with [update: {}] a row
    whose name is already in the table changes nothing, so the table
    before the upload is the beginning of the table after it and every
    record is found again as it was. *)
Theorem legacy_upload_only_appends (rows : list (gmap string JsValue))
    (table : list Medicine) :
  exists added,
    (Legacy.uploadRows rows table).1 = table ++ added
    /\ forall key r, findUnique table key = Some r ->
                     findUnique (Legacy.uploadRows rows table).1 key = Some r.
Proof.
  assert (H : exists added, (Legacy.uploadRows rows table).1 = table ++ added).
  { revert table. induction rows as [|row rows IH]; intros table.
    - exists []. rewrite app_nil_r. reflexivity.
    - cbn [Legacy.uploadRows].
      destruct (Legacy.uploadRow table row) as [t1|] eqn:Hrow.
      + destruct (legacy_uploadRow_appends _ _ _ Hrow) as [a1 [-> _]].
        destruct (IH (table ++ a1)) as [a2 ->].
        exists (a1 ++ a2). rewrite app_assoc. reflexivity.
      + exists []. rewrite app_nil_r. reflexivity. }
  destruct H as [added H]. exists added. split; [exact H|].
  intros key r Hf. rewrite H. apply findUnique_app_l. exact Hf.
Qed.

Lemma filterHolds_equals (v w : option string) :
  filterHolds (FEquals v) w = true <-> v = w.
Proof.
  destruct v as [s|], w as [t|]; cbn [filterHolds];
    rewrite ?String.eqb_eq; split; congruence.
Qed.

(** X26: The search of the first copy pairs a brand with a generic of the same
    salt: the brand is the first one whose name contains the query and the
    generic, when there is one, has exactly the salt of the brand, two null
    salts counting as equal. *)
Theorem legacy_search_pairs_equal_salts (branded generic : list Medicine)
    (query : string) (bn : string) (gn : option string) (s : option string) :
  Legacy.searchBranded branded generic (Some query) = Legacy.Found bn gn s ->
  (exists b, In b branded /\ name b = bn /\ salt b = s
             /\ includes (toLowerCase bn) (toLowerCase query) = true)
  /\ forall n, gn = Some n -> exists g, In g generic /\ name g = n /\ salt g = s.
Proof.
  unfold Legacy.searchBranded. destruct (isEmpty query); [discriminate|].
  unfold findFirstContains.
  destruct (List.find _ branded) as [b|] eqn:Hb; [|discriminate].
  intros [= <- <- <-].
  destruct (find_first _ _ _ Hb) as [pre [post [-> [Hinc _]]]]. split.
  - exists b. split; [apply in_or_app; right; left; reflexivity|].
    repeat split. exact Hinc.
  - intros n Hn.
    destruct (List.find _ generic) as [g|] eqn:Hg; [|discriminate].
    destruct (isEmpty (name g)); [discriminate|]. injection Hn as <-.
    destruct (find_first _ _ _ Hg) as [pre' [post' [-> [Hw _]]]].
    exists g. split; [apply in_or_app; right; left; reflexivity|].
    split; [reflexivity|].
    unfold whereHolds, objectLiteral in Hw. cbn [foldl fst snd] in Hw.
    rewrite lookup_insert_eq in Hw. apply filterHolds_equals in Hw. congruence.
Qed.

Lemma legacy_search_pairs_equal_salts_witness :
  exists g, In g [brufen; named "PLAIN"] /\ name g = "PLAIN" /\ salt g = None.
Proof.
  destruct (legacy_search_pairs_equal_salts [crocin; named "CROCIN X"]
              [brufen; named "PLAIN"] "crocin x" "CROCIN X" (Some "PLAIN") None eq_refl)
    as [_ H].
  apply (H "PLAIN"). reflexivity.
Defined.

End LegacyFacts.
